(** * generador_datos_sinteticos.py: the chunked generator of synthetic rows

    A shallow embedding of [main], the only function of the program.

    - float64 values are rationals ([Q]): every sampled value is finite, and
      the run is followed in exact arithmetic, with one exception: a sum of
      hours beyond [DBL_MAX] is the [inf] of the program, and [24 / inf] is
      0.  The rounding of the single operations of lines 85 to 98 is
      treated apart, by the standard model of a correctly rounded operation
      ([fl_mul], [fl_add]) and, on concrete rows, by binary64 itself
      ([budget_f64], on primitive floats).  [np.round] is round-half-to-even
      on the scaled value.
    - Python integers are [Z]; the int64 scalars of numpy wrap ([wrap64]).
    - A mean or a covariance that is [nan] is [None].
    - The seed table is a pandas frame: an ordered list of named, typed
      columns.  Its column names are pairwise distinct, as [read_csv]
      delivers them.
    - A batch ([df_chunk]) is a list of rows, a row being a dictionary from
      column names to cells: every statement of the loop body acts on the
      rows one by one, so each of them is a function on one row, applied to
      all rows of the batch.
    - [np.random.multivariate_normal] refuses what numpy refuses (a negative
      size, a covariance with a [nan]) and otherwise returns the values of
      an oracle [draws]: the theorems hold for every value it may return.
    - [time.time() - start_time] is an oracle [elapsed], one reading for
      each pass of the loop.
    - Exceptions are values of [result]; the output file is the list of the
      [to_csv] calls made so far; the [while] loop takes fuel. *)

From Stdlib Require Import Sorted OrderedTypeEx Floats.
From stdpp Require Import gmap strings list fin_maps.
From Stdlib Require Import QArith Qround Qabs Qminmax Lqa Lia.

Local Open Scope Q_scope.
#[local] Set Warnings "-clear-no-such-hyp".
#[local] Set Warnings "-inexact-float".

(** ** Numbers *)

Definition Qltb (x y : Q) : bool :=
  match Qcompare x y with Lt => true | _ => false end.

Definition Qleb (x y : Q) : bool :=
  match Qcompare x y with Gt => false | _ => true end.

(** [np.rint]: the nearest integer, ties to the even one. *)
Definition rint (x : Q) : Z :=
  let f := Qfloor x in
  match Qcompare (x - inject_Z f) (1 # 2) with
  | Lt => f
  | Gt => (f + 1)%Z
  | Eq => if Z.even f then f else (f + 1)%Z
  end.

(** [Series.round(decimals)]: [rint (x * 10^d) / 10^d]. *)
Definition np_round (decimals : nat) (x : Q) : Q :=
  let scale := inject_Z (10 ^ Z.of_nat decimals) in
  inject_Z (rint (x * scale)) / scale.

(** [Series.clip(lower=lo)]. *)
Definition clip_lower (lo x : Q) : Q := if Qltb x lo then lo else x.

(** [Series.clip(lower, upper)] with two scalars: pandas first puts the two
    bounds in order, then caps from above and from below. *)
Definition clip (lower upper x : Q) : Q :=
  let lo := Qmin lower upper in
  let hi := Qmax lower upper in
  clip_lower lo (if Qleb x hi then x else hi).

Definition clipZ (lower upper x : Z) : Z :=
  Z.max (Z.min lower upper) (Z.min (Z.max lower upper) x).

(** The value of an int64 operation of numpy: the exact one, wrapped into
    [-2^63 .. 2^63 - 1]. *)
Definition wrap64 (z : Z) : Z := ((z + 2 ^ 63) `mod` 2 ^ 64 - 2 ^ 63)%Z.

Definition in_int64 (z : Z) : Prop := (- 2 ^ 63 ≤ z < 2 ^ 63)%Z.

(** The largest float64. *)
Definition DBL_MAX : Q := inject_Z (2 ^ 1024 - 2 ^ 971).

(** ** Exceptions *)

Inductive exn :=
| KeyError (col : string)
| TypeError
| ValueError
| ZeroDivide
| LinAlgError.

Inductive result (A : Type) :=
| Ok (a : A)
| Raise (e : exn).
Arguments Ok {A} a.
Arguments Raise {A} e.

#[global] Instance result_ret : MRet result := λ A, Ok.
#[global] Instance result_bind : MBind result := λ A B f m,
  match m with Ok a => f a | Raise e => Raise e end.

(** [for x in xs: a = body x a] *)
Fixpoint for_each {A B} (xs : list B) (body : B → A → result A) (a : A)
  : result A :=
  match xs with
  | [] => Ok a
  | x :: xs' => a' ← body x a; for_each xs' body a'
  end.

(** numpy answers a zero divisor with [inf] or [nan]; the numbers of this
    model are all finite, so a zero divisor is an outcome of its own. *)
Definition true_divide (a b : Q) : result Q :=
  if Qeq_bool b 0 then Raise ZeroDivide else Ok (a / b).

(** ** Tables *)

(** A column of the seed frame with its dtype: int64, float64 or object
    (the strings [astype(str)] gives). *)
Inductive Series :=
| IntS (l : list Z)
| FloatS (l : list Q)
| ObjS (l : list string).

Definition DataFrame := list (string * Series).

Inductive cell :=
| Flt (x : Q)
| Int (n : Z)
| Str (s : string).

Abbreviation row := (gmap string cell).

(** A row of the frame handed to [to_csv], in the column order of the seed. *)
Definition out_row := list (string * cell).

(** The scalar [current_id]: a Python [int], or a float (of a float column,
    or the [nan] of an empty one), whose value [range] never looks at. *)
Inductive scalar :=
| SInt (n : Z)
| SFloat.

Definition df_columns (df : DataFrame) : list string := df.*1.

Fixpoint df_getitem (df : DataFrame) (col : string) : result Series :=
  match df with
  | [] => Raise (KeyError col)
  | (c, s) :: df' => if decide (c = col) then Ok s else df_getitem df' col
  end.

Definition is_number (s : Series) : bool :=
  match s with ObjS _ => false | _ => true end.

(** [df.select_dtypes(include=[np.number])] and [exclude=] *)
Definition select_dtypes (include : bool) (df : DataFrame) : list string :=
  (filter (λ cs, is_number cs.2 = include) df).*1.

(** [list.remove(x)]: drops the first occurrence. *)
Fixpoint list_remove_first (x : string) (l : list string) : list string :=
  match l with
  | [] => []
  | y :: l' => if decide (y = x) then l' else y :: list_remove_first x l'
  end.

(** ** LabelEncoder *)

Fixpoint insert_unique (s : string) (l : list string) : list string :=
  match l with
  | [] => [s]
  | x :: l' =>
      match String.compare s x with
      | Lt => s :: l
      | Eq => l
      | Gt => x :: insert_unique s l'
      end
  end.

(** [classes_]: the distinct values, sorted. *)
Definition fit (values : list string) : list string :=
  foldr insert_unique [] values.

(** [inverse_transform] refuses a code outside [0 .. len(classes_) - 1]. *)
Definition inverse_transform (classes_ : list string) (code : Z)
  : result string :=
  if decide (0 ≤ code)%Z then
    match classes_ !! Z.to_nat code with
    | Some v => Ok v
    | None => Raise ValueError
    end
  else Raise ValueError.

(** [transform]: the code of a value is its position in [classes_]; a value
    that was not fitted is refused. *)
Fixpoint index_of (v : string) (l : list string) : option nat :=
  match l with
  | [] => None
  | x :: l' => if decide (x = v) then Some 0%nat else S <$> index_of v l'
  end.

Definition transform (classes_ : list string) (v : string) : result Z :=
  match index_of v classes_ with
  | Some i => Ok (Z.of_nat i)
  | None => Raise ValueError
  end.

(** [fit_transform] (line 48) *)
Definition fit_transform (values : list string) : result (list Z) :=
  mapM (transform (fit values)) values.

(** ** Step 1 of [main]: the analysis of the seed *)

Definition time_vars_independent : list string :=
  ["Study_Hours_Per_Day"; "Extracurricular_Hours_Per_Day";
   "Sleep_Hours_Per_Day"; "Social_Hours_Per_Day"]%string.

Definition other_numerics (df : DataFrame) : list string :=
  filter (λ c, (c ∉ time_vars_independent)
               ∧ (c ≠ "Physical_Activity_Hours_Per_Day"%string)
               ∧ (c ≠ "Student_ID"%string))
         (select_dtypes true df).

Definition cols_categoricas (df : DataFrame) : list string :=
  let cols := select_dtypes false df in
  if decide ("Stress_Level"%string ∈ cols)
  then list_remove_first "Stress_Level" cols else cols.

(** The loop that fills [encoders]. *)
Definition fit_encoders (df : DataFrame) (cols : list string)
  : gmap string (list string) :=
  foldl (λ encoders col,
           match df_getitem df col with
           | Ok (ObjS l) => <[col := fit l]> encoders
           | _ => encoders
           end) ∅ cols.

Definition cols_a_modelar (df : DataFrame) : list string :=
  time_vars_independent ++ other_numerics df ++ cols_categoricas df.

(** [df_proc[cols]] raises on the first name that is no column. *)
Definition df_select (df : DataFrame) (cols : list string) : result unit :=
  for_each cols (λ col _, _ ← df_getitem df col; Ok ()) ().

Definition encoders (df : DataFrame) : gmap string (list string) :=
  fit_encoders df (cols_categoricas df).

(** Lines 21 to 56: the only statement that can fail is the selection of the
    modelled columns for the mean and the covariance, which are [mu] and
    [sigma] below. *)
Definition analyse (df_seed : DataFrame) : result unit :=
  df_select df_seed (cols_a_modelar df_seed).

Definition Qsum (xs : list Q) : Q := foldl Qplus 0 xs.

(** Lines 45 to 49: a column of [df_proc].  A categorical column holds its
    codes; [fit_transform] is given the values it was fitted on and refuses
    none of them. *)
Definition proc_values (s : Series) : list Q :=
  match s with
  | IntS l => inject_Z <$> l
  | FloatS l => l
  | ObjS l =>
      match fit_transform l with
      | Ok codes => inject_Z <$> codes
      | Raise _ => []
      end
  end.

Definition df_proc (df : DataFrame) (col : string) : list Q :=
  match df_getitem df col with
  | Ok s => proc_values s
  | Raise _ => []
  end.

(** [Series.mean()]: [nan] on no value. *)
Definition mean (xs : list Q) : option Q :=
  match xs with
  | [] => None
  | _ => Some (Qsum xs / inject_Z (Z.of_nat (length xs)))
  end.

(** One entry of [DataFrame.cov()]: the sample covariance, which divides by
    the number of rows less one and is [nan] on fewer than two rows. *)
Definition cov (xs ys : list Q) : option Q :=
  let n := length (zip xs ys) in
  if decide (n < 2)%nat then None
  else
    mx ← mean xs;
    my ← mean ys;
    Some (Qsum (zip_with (λ x y, (x - mx) * (y - my)) xs ys)
          / inject_Z (Z.of_nat n - 1)).

(** Lines 55 and 56 *)
Definition mu (df : DataFrame) : list (option Q) :=
  (λ c, mean (df_proc df c)) <$> cols_a_modelar df.

Definition sigma (df : DataFrame) : list (list (option Q)) :=
  (λ c1, (λ c2, cov (df_proc df c1) (df_proc df c2)) <$> cols_a_modelar df)
    <$> cols_a_modelar df.

(** [df_seed['Student_ID'].max() + 1], on an int64 column an int64. *)
Definition initial_id (df_seed : DataFrame) : result scalar :=
  ids ← df_getitem df_seed "Student_ID";
  match ids with
  | IntS (x :: l) => Ok (SInt (wrap64 (foldr Z.max x l + 1)))
  | IntS [] => Ok SFloat
  | FloatS _ => Ok SFloat
  | ObjS [] => Ok SFloat
  | ObjS (_ :: _) => Raise TypeError
  end.

(** ** Step 3 of [main]: one batch *)

Definition getF (r : row) (col : string) : result Q :=
  match r !! col with
  | Some (Flt x) => Ok x
  | Some _ => Raise TypeError
  | None => Raise (KeyError col)
  end.

(** [np.random.multivariate_normal(mu, sigma, size)] (line 76).  The shape
    is checked first, and a negative size is refused; the decomposition of
    a covariance that holds a [nan] does not converge.  Otherwise [size]
    vectors as long as [mu] are returned, here those of the oracle. *)
Definition multivariate_normal (mu : list (option Q))
    (sigma : list (list (option Q))) (size : Z) (draws : nat → nat → Q)
  : result (list (list Q)) :=
  if decide (size < 0)%Z then Raise ValueError
  else if decide (Forall (Forall is_Some) sigma) then
    Ok ((λ i, draws i <$> seq 0 (length mu)) <$> seq 0 (Z.to_nat size))
  else Raise LinAlgError.

(** [pd.DataFrame(datos_raw, columns=cols)], one row (line 77). *)
Definition frame_row (cols : list string) (values : list Q) : row :=
  list_to_map (zip cols (Flt <$> values)).

(** Row [i] of batch [k], as the oracle fills it. *)
Definition raw_row (draws : nat → nat → nat → Q) (cols : list string)
    (k i : nat) : row :=
  frame_row cols (draws k i <$> seq 0 (length cols)).

Definition all_time_vars : list string :=
  time_vars_independent ++ ["Physical_Activity_Hours_Per_Day"%string].

(** B.1 (lines 81, 82) *)
Definition clip_negatives (r : row) : result row :=
  for_each time_vars_independent
    (λ col r, x ← getF r col; Ok (<[col := Flt (clip_lower 0 x)]> r)) r.

(** B.2 (line 85) *)
Definition sum_hours (r : row) : result row :=
  xs ← mapM (getF r) time_vars_independent;
  Ok (<["Sum_Hours"%string := Flt (Qsum xs)]> r).

(** [24 / Sum_Hours] (line 90): a sum beyond [DBL_MAX] is [inf], and
    [24 / inf] is 0.  (The sum is the exact one: the float64 sum is rounded,
    and is [inf] from [DBL_MAX + 2^970] on.) *)
Definition rescale_factor (s : Q) : result Q :=
  if Qltb DBL_MAX s then Ok 0 else true_divide 24 s.

(** B.3 and B.4 (lines 88 to 98): the rows of [mask_overflow] are scaled and
    get 0; the rows of [mask_ok] get the slack.  The test [.any()] of line
    89 only skips assignments that would select no row. *)
Definition fix_budget (r : row) : result row :=
  s ← getF r "Sum_Hours";
  let mask_overflow := Qltb 24 s in
  r ← (if mask_overflow then
         s ← getF r "Sum_Hours";
         factor ← rescale_factor s;
         r ← for_each time_vars_independent
               (λ col r, x ← getF r col; Ok (<[col := Flt (x * factor)]> r)) r;
         Ok (<["Physical_Activity_Hours_Per_Day"%string := Flt 0]> r)
       else Ok r);
  let mask_ok := negb mask_overflow in
  if mask_ok then
    s ← getF r "Sum_Hours";
    Ok (<["Physical_Activity_Hours_Per_Day"%string := Flt (24 - s)]> r)
  else Ok r.

(** B.1 to B.4 (lines 81 to 98): the time budget before it is rounded. *)
Definition time_budget (r : row) : result row :=
  r ← clip_negatives r;
  r ← sum_hours r;
  fix_budget r.

(** B.5 (lines 101 to 103) *)
Definition round_times (r : row) : result row :=
  for_each all_time_vars
    (λ col r, x ← getF r col; Ok (<[col := Flt (np_round 1 x)]> r)) r.

(** Lines 106 and 107 *)
Definition clean_numerics (r : row) : result row :=
  gpa ← getF r "GPA";
  let r := <["GPA"%string := Flt (np_round 2 (clip 0 4 gpa))]> r in
  age ← getF r "Age";
  Ok (<["Age"%string := Int (rint age)]> r).

(** C (lines 110 to 114), one column: round, cast, clamp, decode. *)
Definition decode_column (enc : gmap string (list string)) (col : string)
    (r : row) : result row :=
  code ← match r !! col with
         | Some (Flt x) => Ok (rint x)
         | Some (Int n) => Ok n
         | Some (Str _) => Raise TypeError
         | None => Raise (KeyError col)
         end;
  classes_ ← match enc !! col with
             | Some cl => Ok cl
             | None => Raise (KeyError col)
             end;
  let max_idx := (Z.of_nat (length classes_) - 1)%Z in
  v ← inverse_transform classes_ (clipZ 0 max_idx code);
  Ok (<[col := Str v]> r).

Definition decode_categories (enc : gmap string (list string))
    (cols : list string) (r : row) : result row :=
  for_each cols (decode_column enc) r.

(** [np.select]: the choice of the first condition that holds. *)
Fixpoint np_select {A} (condlist : list bool) (choicelist : list A)
    (default : A) : A :=
  match condlist, choicelist with
  | c :: cs, o :: os => if c then o else np_select cs os default
  | _, _ => default
  end.

(** D (lines 117 to 122) *)
Definition stress_level (r : row) : result row :=
  sleep ← getF r "Sleep_Hours_Per_Day";
  study ← getF r "Study_Hours_Per_Day";
  let condiciones :=
    [Qltb sleep 6 || Qltb 8 study; Qleb 6 sleep && Qltb study 6] in
  let opciones := ["High"; "Low"]%string in
  Ok (<["Stress_Level"%string :=
          Str (np_select condiciones opciones "Moderate"%string)]> r).

(** Lines 81 to 122 on one row. *)
Definition repair_row (df_seed : DataFrame) (r : row) : result row :=
  r ← time_budget r;
  r ← round_times r;
  r ← clean_numerics r;
  r ← decode_categories (encoders df_seed) (cols_categoricas df_seed) r;
  stress_level r.

(** [df_chunk[columnas_ordenadas]] *)
Definition reorder (columnas : list string) (r : row) : result out_row :=
  mapM (λ c, match r !! c with
             | Some v => Ok (c, v)
             | None => Raise (KeyError c)
             end) columnas.

(** [a + n], on an int64 an int64. *)
Definition scalar_add (a : scalar) (n : Z) : scalar :=
  match a with
  | SInt a => SInt (wrap64 (a + n))
  | SFloat => SFloat
  end.

(** [range(a, a + n)]: the integers from [a] up to the stop, which is the
    wrapped sum. *)
Definition py_range (a : scalar) (n : Z) : result (list Z) :=
  match a, scalar_add a n with
  | SInt a, SInt stop => Ok (seqZ a (stop - a))
  | _, _ => Raise TypeError
  end.

(** [df_chunk[col] = values] (line 125): pandas refuses values whose number
    is not the number of rows. *)
Definition setitem (col : string) (values : list Z) (df_chunk : list row)
  : result (list row) :=
  if decide (length values = length df_chunk)
  then Ok (zip_with (λ r v, <[col := Int v]> r) df_chunk values)
  else Raise ValueError.

Record state := {
  rows_generated : Z;
  chunk_counter : Z;
  current_id : scalar;
}.

(** One pass through the body of the [while] loop: the batch it appends and
    the state it leaves. *)
Definition loop_body (TARGET_NEW_ROWS CHUNK_SIZE : Z) (df_seed : DataFrame)
    (draws : nat → nat → nat → Q) (st : state)
  : result (list out_row * state) :=
  let current_chunk_size :=
    Z.min CHUNK_SIZE (TARGET_NEW_ROWS - rows_generated st) in
  datos_raw ← multivariate_normal (mu df_seed) (sigma df_seed)
                 current_chunk_size (draws (Z.to_nat (chunk_counter st)));
  let df_chunk := frame_row (cols_a_modelar df_seed) <$> datos_raw in
  df_chunk ← mapM (repair_row df_seed) df_chunk;
  ids ← py_range (current_id st) current_chunk_size;
  df_chunk ← setitem "Student_ID" ids df_chunk;
  let current_id' := scalar_add (current_id st) current_chunk_size in
  df_chunk ← mapM (reorder (df_columns df_seed)) df_chunk;
  Ok (df_chunk,
      {| rows_generated := rows_generated st + current_chunk_size;
         chunk_counter := chunk_counter st + 1;
         current_id := current_id' |}).

(** ** The progress log (lines 139 to 141)

    [elapsed] is what the clock gives; Python's own division raises
    ZeroDivisionError on a zero divisor. *)
Definition eta_min (TARGET_NEW_ROWS rows_generated : Z) (elapsed : Q)
  : result Q :=
  speed ← true_divide (inject_Z rows_generated) elapsed;
  x ← true_divide (inject_Z (TARGET_NEW_ROWS - rows_generated)) speed;
  true_divide x 60.

(** ** The run *)

Inductive event :=
| to_csv_w (df : DataFrame)
| to_csv_a (rows : list out_row).

Inductive outcome :=
| Done (st : state)
| Raised (e : exn)
| OutOfFuel.

(** The [while] loop (lines 71 to 142).  A pass appends its batch (line
    132), moves the counters (lines 135 and 136) and then computes the
    figures of the progress log (lines 139 to 141) from the clock reading
    of that pass. *)
Fixpoint loop (fuel : nat) (TARGET_NEW_ROWS CHUNK_SIZE : Z)
    (df_seed : DataFrame) (draws : nat → nat → nat → Q) (elapsed : nat → Q)
    (st : state) (sink : list event) : list event * outcome :=
  if decide (rows_generated st < TARGET_NEW_ROWS)%Z then
    match fuel with
    | O => (sink, OutOfFuel)
    | S fuel' =>
        match loop_body TARGET_NEW_ROWS CHUNK_SIZE df_seed draws st with
        | Ok (df_chunk, st') =>
            let sink := sink ++ [to_csv_a df_chunk] in
            match eta_min TARGET_NEW_ROWS (rows_generated st')
                          (elapsed (Z.to_nat (chunk_counter st))) with
            | Ok _ =>
                loop fuel' TARGET_NEW_ROWS CHUNK_SIZE df_seed draws elapsed
                     st' sink
            | Raise e => (sink, Raised e)
            end
        | Raise e => (sink, Raised e)
        end
    end
  else (sink, Done st).

Definition main (fuel : nat) (TARGET_NEW_ROWS CHUNK_SIZE : Z)
    (df_seed : DataFrame) (draws : nat → nat → nat → Q) (elapsed : nat → Q)
  : list event * outcome :=
  match analyse df_seed with
  | Raise e => ([], Raised e)
  | Ok _ =>
      let sink := [to_csv_w df_seed] in
      match initial_id df_seed with
      | Raise e => (sink, Raised e)
      | Ok id0 =>
          loop fuel TARGET_NEW_ROWS CHUNK_SIZE df_seed draws elapsed
               {| rows_generated := 0; chunk_counter := 0;
                  current_id := id0 |} sink
      end
  end.

(** The rows appended after the seed, in the order of the file. *)
Definition synthetic_rows (sink : list event) : list out_row :=
  sink ≫= λ ev, match ev with to_csv_a rows => rows | to_csv_w _ => [] end.

(** ** A small seed and a fixed sequence of draws *)

Definition seed1 : DataFrame :=
  [("Student_ID", IntS [1; 2]%Z);
   ("Study_Hours_Per_Day", FloatS [4; 6]);
   ("Extracurricular_Hours_Per_Day", FloatS [3; 2]);
   ("Sleep_Hours_Per_Day", FloatS [8; 7]);
   ("Social_Hours_Per_Day", FloatS [2; 3]);
   ("Physical_Activity_Hours_Per_Day", FloatS [7; 6]);
   ("GPA", FloatS [3.1; 3.5]);
   ("Age", IntS [20; 22]%Z);
   ("Gender", ObjS ["Female"; "Male"]);
   ("Stress_Level", ObjS ["Low"; "Moderate"])]%string.

Definition draws1 (k i j : nat) : Q :=
  match j with
  | 0%nat => 10 - inject_Z (Z.of_nat i)
  | 1%nat => 10
  | 2%nat => 6 + (1 # 3) * inject_Z (Z.of_nat (k `min` 9))
  | 3%nat => 6 - 7 * inject_Z (Z.of_nat k)
  | 4%nat => 3.456
  | 5%nat => 20.5
  | _ => 0.7
  end.

(** A clock that advances by one second a pass. *)
Definition clock1 (k : nat) : Q := inject_Z (Z.of_nat k) + 1.

(** The first row the run [main 3 3 2 seed1 draws1 clock1] appends: the
    draw Study 10, Extracurricular 10, Sleep 6, Social 6. *)
Definition row1 : out_row :=
  [("Student_ID", Int 3); ("Study_Hours_Per_Day", Flt 7.5);
   ("Extracurricular_Hours_Per_Day", Flt 7.5);
   ("Sleep_Hours_Per_Day", Flt 4.5); ("Social_Hours_Per_Day", Flt 4.5);
   ("Physical_Activity_Hours_Per_Day", Flt 0.0); ("GPA", Flt 3.46);
   ("Age", Int 20); ("Gender", Str "Male");
   ("Stress_Level", Str "High")]%string.

(** Draws whose four hours are 2^1023 each: their sum is beyond the range
    of float64. *)
Definition draws_huge (k i j : nat) : Q :=
  if decide (j < 4)%nat then inject_Z (2 ^ 1023) else draws1 k i j.



(** The seed cut down to its first row. *)
Definition head_row (df : DataFrame) : DataFrame :=
  prod_map id (λ s, match s with
                    | IntS l => IntS (take 1 l)
                    | FloatS l => FloatS (take 1 l)
                    | ObjS l => ObjS (take 1 l)
                    end) <$> df.


(** The order of Python strings. *)
Definition string_lt (a b : string) : Prop := String.compare a b = Lt.

(** ** float64

    The standard model of a correctly rounded operation: the float64 [y]
    that an operation with the exact value [x] returns, as long as [x] is
    within the range.  A sum or a difference is off by a relative error of
    at most [u64]; a product or a quotient may underflow, and is then off
    by at most [eta64]. *)
Definition u64 : Q := 1 # 2 ^ 53.
Definition eta64 : Q := 1 # 2 ^ 1075.

Definition fl_add (x y : Q) : Prop := Qabs (y - x) <= u64 * Qabs x.
Definition fl_mul (x y : Q) : Prop := Qabs (y - x) <= u64 * Qabs x + eta64.

(** Line 85 in float64, on the clipped hours: the sum, term by term. *)
Definition sum_hours_f64 (c1 c2 c3 c4 s : Q) : Prop :=
  ∃ s1 s2, fl_add (c1 + c2) s1 ∧ fl_add (s1 + c3) s2 ∧ fl_add (s2 + c4) s.

(** Lines 88 to 92 in float64: the hours [y1 .. y4] that a row whose sum
    is over 24, and finite, is left with. *)
Definition overflow_repair_f64 (c1 c2 c3 c4 y1 y2 y3 y4 : Q) : Prop :=
  ∃ s factor,
    sum_hours_f64 c1 c2 c3 c4 s
    ∧ 24 < s ∧ s <= DBL_MAX
    ∧ fl_mul (24 / s) factor
    ∧ fl_mul (c1 * factor) y1 ∧ fl_mul (c2 * factor) y2
    ∧ fl_mul (c3 * factor) y3 ∧ fl_mul (c4 * factor) y4.

(** Lines 97 and 98 in float64: the residual [p] of a row whose sum is at
    most 24. *)
Definition slack_repair_f64 (c1 c2 c3 c4 p : Q) : Prop :=
  ∃ s, sum_hours_f64 c1 c2 c3 c4 s ∧ s <= 24 ∧ fl_add (24 - s) p.

(** binary64 itself: lines 82 to 98 on the four sampled hours of one row,
    giving the four hours and the residual. *)
Definition clip_lower_f64 (x : float) : float :=
  if PrimFloat.ltb x 0 then 0%float else x.

Definition budget_f64 (x1 x2 x3 x4 : float)
  : float * float * float * float * float :=
  let c1 := clip_lower_f64 x1 in
  let c2 := clip_lower_f64 x2 in
  let c3 := clip_lower_f64 x3 in
  let c4 := clip_lower_f64 x4 in
  let Sum_Hours := (c1 + c2 + c3 + c4)%float in
  if PrimFloat.ltb 24 Sum_Hours then
    let factor := (24 / Sum_Hours)%float in
    ((c1 * factor)%float, (c2 * factor)%float, (c3 * factor)%float,
     (c4 * factor)%float, 0%float)
  else (c1, c2, c3, c4, (24 - Sum_Hours)%float).

(** The rational a finite float64 is. *)
Definition Q_of_f64 (x : float) : option Q :=
  match Prim2SF x with
  | S754_zero _ => Some 0
  | S754_finite s m e =>
      Some (inject_Z (if s then Z.neg m else Z.pos m) * 2 ^ e)
  | _ => None
  end.

(** ** Vocabulary of the statements *)

(** What lines 88 to 98 leave in an hour column and in the residual column
    of a row whose clipped hours sum to [s]. *)
Definition scaled (s c : Q) : Q :=
  if Qltb 24 s then c * (if Qltb DBL_MAX s then 0 else 24 / s) else c.
Definition slack (s : Q) : Q := if Qltb 24 s then 0 else 24 - s.

(** Two rows that differ at most in the columns [ks]. *)
Definition agree_except (ks : list string) (r r' : row) : Prop :=
  ∀ k, k ∉ ks → r' !! k = r !! k.

(** A cell that holds a number. *)
Definition numeric (v : cell) : Prop :=
  match v with Str _ => False | _ => True end.


(** The value of a written row in a column. *)
Definition out_get (o : out_row) (c : string) : option cell :=
  (list_to_map o : gmap string cell) !! c.

(** The identifiers of the written rows, in the order of the file. *)
Definition student_ids (rows : list out_row) : list cell :=
  omap (λ o, out_get o "Student_ID") rows.

(** The schema the program is meant for: distinct column names, the hour
    columns, GPA and Age numeric, integer identifiers, no empty column. *)
Definition valid_schema (df : DataFrame) : Prop :=
  NoDup (df_columns df)
  ∧ Forall (λ c, c ∈ select_dtypes true df)
           (time_vars_independent ++ ["GPA"; "Age"]%string)
  ∧ (∃ x l, df_getitem df "Student_ID" = Ok (IntS (x :: l)))
  ∧ Forall (λ cs, cs.2 ≠ ObjS []) df.

Definition series_len (s : Series) : nat :=
  match s with
  | IntS l => length l
  | FloatS l => length l
  | ObjS l => length l
  end.

(** A seed the program is meant for: the schema, in a table of at least
    two rows (fewer have no covariance) whose integers are int64. *)
Definition valid_seed (df : DataFrame) : Prop :=
  valid_schema df
  ∧ (∃ n, (2 ≤ n)%nat ∧ Forall (λ cs, series_len cs.2 = n) df)
  ∧ Forall (λ cs, match cs.2 with
                  | IntS l => Forall in_int64 l
                  | _ => True
                  end) df.

(** The identifiers of [T] new rows, and the counter after them, are below
    the end of int64. *)
Definition ids_fit (df : DataFrame) (T : Z) : Prop :=
  ∀ x l, df_getitem df "Student_ID" = Ok (IntS (x :: l)) →
         (foldr Z.max x l + 1 + T < 2 ^ 63)%Z.

(** A clock that has moved on since [start_time] at every reading. *)
Definition clock_moves (elapsed : nat → Q) : Prop := ∀ k, ¬ elapsed k == 0.

(** The rule of the derived label, condition by condition. *)
Inductive stress_rule (sleep study : Q) : string → Prop :=
| rule_high :
    sleep < 6 ∨ 8 < study → stress_rule sleep study "High"
| rule_low :
    ¬ (sleep < 6 ∨ 8 < study) → 6 <= sleep ∧ study < 6 →
    stress_rule sleep study "Low"
| rule_moderate :
    ¬ (sleep < 6 ∨ 8 < study) → ¬ (6 <= sleep ∧ study < 6) →
    stress_rule sleep study "Moderate".

(** * Properties *)

(** ** Comparisons and rounding *)

Lemma Qltb_lt x y : Qltb x y = true ↔ x < y.
Proof.
  unfold Qltb. rewrite Qlt_alt.
  destruct (Qcompare x y); split; congruence.
Qed.

Lemma Qltb_ge x y : Qltb x y = false ↔ y <= x.
Proof.
  rewrite <- not_true_iff_false, Qltb_lt. split.
  - apply Qnot_lt_le.
  - apply Qle_not_lt.
Qed.

Lemma Qleb_le x y : Qleb x y = true ↔ x <= y.
Proof.
  unfold Qleb. rewrite Qle_alt. destruct (Qcompare x y); split; congruence.
Qed.

Lemma Qleb_gt x y : Qleb x y = false ↔ y < x.
Proof.
  rewrite <- not_true_iff_false, Qleb_le. split.
  - apply Qnot_le_lt.
  - apply Qlt_not_le.
Qed.

Lemma inject_Z_succ (z : Z) : inject_Z (z + 1) == inject_Z z + 1.
Proof. rewrite inject_Z_plus. reflexivity. Qed.

(** The nearest integer is at most one half away. *)
Lemma rint_near x :
  x - (1 # 2) <= inject_Z (rint x) ∧ inject_Z (rint x) <= x + (1 # 2).
Proof.
  pose proof (Qfloor_le x) as Hlo. pose proof (Qlt_floor x) as Hhi.
  rewrite inject_Z_succ in Hhi. unfold rint.
  destruct (Qcompare (x - inject_Z (Qfloor x)) (1 # 2)) eqn:Hc.
  - apply Qeq_alt in Hc.
    destruct (Z.even (Qfloor x)); rewrite ?inject_Z_succ; split; lra.
  - apply Qlt_alt in Hc. split; lra.
  - apply Qgt_alt in Hc. rewrite inject_Z_succ. split; lra.
Qed.

Lemma rint_nonneg x : 0 <= x → (0 ≤ rint x)%Z.
Proof.
  intros Hx. assert (0 ≤ Qfloor x)%Z as Hf.
  { change 0%Z with (Qfloor 0). by apply Qfloor_resp_le. }
  unfold rint. destruct (Qcompare _ _); [destruct (Z.even _)| |]; lia.
Qed.


Lemma np_round_nonneg d x : 0 <= x → 0 <= np_round d x.
Proof.
  intros Hx. unfold np_round.
  assert (0 < inject_Z (10 ^ Z.of_nat d)) as Hs.
  { change 0 with (inject_Z 0). rewrite <- Zlt_Qlt. lia. }
  apply Qle_shift_div_l; [done|]. rewrite Qmult_0_l.
  change 0 with (inject_Z 0). rewrite <- Zle_Qle.
  apply rint_nonneg. apply Qmult_le_0_compat; lra.
Qed.

Lemma clip_lower_ge lo x : lo <= clip_lower lo x.
Proof.
  unfold clip_lower. destruct (Qltb x lo) eqn:H; [lra|].
  by apply Qltb_ge in H.
Qed.

(** ** The exception monad *)

Lemma bind_Ok {A B} (m : result A) (f : A → result B) b :
  (m ≫= f) = Ok b ↔ ∃ a, m = Ok a ∧ f a = Ok b.
Proof.
  destruct m as [a|e]; unfold mbind, result_bind; split.
  - naive_solver.
  - by intros (? & [= ->] & ?).
  - done.
  - by intros (? & ? & ?).
Qed.

Lemma bind_Raise {A B} (m : result A) (f : A → result B) e :
  (m ≫= f) = Raise e ↔ m = Raise e ∨ ∃ a, m = Ok a ∧ f a = Raise e.
Proof.
  destruct m as [a|e']; unfold mbind, result_bind; split.
  - naive_solver.
  - by intros [|(? & [= ->] & ?)].
  - naive_solver.
  - intros [[= ->]|(? & ? & ?)]; done.
Qed.

Lemma getF_Ok (r : row) col x : getF r col = Ok x ↔ r !! col = Some (Flt x).
Proof.
  unfold getF. destruct (r !! col) as [[]|]; split; congruence.
Qed.

Ltac inv_ok :=
  repeat match goal with
  | H : (_ ≫= _) = Ok _ |- _ => apply bind_Ok in H as (? & ? & H)
  | H : getF _ _ = Ok _ |- _ => apply getF_Ok in H
  | H : Ok _ = Ok _ |- _ => injection H as H
  | H : Raise _ = Ok _ |- _ => discriminate H
  end.

Lemma clip_negatives_spec (r r1 : row) :
  clip_negatives r = Ok r1 →
  ∃ x1 x2 x3 x4,
    r !! "Study_Hours_Per_Day"%string = Some (Flt x1) ∧
    r !! "Extracurricular_Hours_Per_Day"%string = Some (Flt x2) ∧
    r !! "Sleep_Hours_Per_Day"%string = Some (Flt x3) ∧
    r !! "Social_Hours_Per_Day"%string = Some (Flt x4) ∧
    r1 = <["Social_Hours_Per_Day"%string := Flt (clip_lower 0 x4)]>
           (<["Sleep_Hours_Per_Day"%string := Flt (clip_lower 0 x3)]>
             (<["Extracurricular_Hours_Per_Day"%string := Flt (clip_lower 0 x2)]>
               (<["Study_Hours_Per_Day"%string := Flt (clip_lower 0 x1)]> r))).
Proof.
  unfold clip_negatives, time_vars_independent. cbn [for_each].
  intros H. inv_ok. simplify_map_eq.
  eauto 10.
Qed.

(** ** The time budget, step by step *)

Lemma getF_lookup (r : row) col x : r !! col = Some (Flt x) → getF r col = Ok x.
Proof. apply getF_Ok. Qed.

Lemma bind_ret_l {A B} (a : A) (f : A → result B) : (Ok a ≫= f) = f a.
Proof. reflexivity. Qed.

Ltac run_get :=
  repeat first
    [ rewrite bind_ret_l
    | erewrite getF_lookup by (simplify_map_eq; reflexivity) ].

Lemma true_divide_overflow s : Qltb 24 s = true → true_divide 24 s = Ok (24 / s).
Proof.
  intros H%Qltb_lt. unfold true_divide.
  destruct (Qeq_bool s 0) eqn:E; [|done].
  apply Qeq_bool_iff in E. lra.
Qed.

Lemma rescale_factor_overflow s :
  Qltb 24 s = true →
  rescale_factor s = Ok (if Qltb DBL_MAX s then 0 else 24 / s).
Proof.
  intros H. unfold rescale_factor.
  destruct (Qltb DBL_MAX s); [done|]. by apply true_divide_overflow.
Qed.

Lemma budget_block_ok (r : row) x1 x2 x3 x4 :
  r !! "Study_Hours_Per_Day"%string = Some (Flt x1) →
  r !! "Extracurricular_Hours_Per_Day"%string = Some (Flt x2) →
  r !! "Sleep_Hours_Per_Day"%string = Some (Flt x3) →
  r !! "Social_Hours_Per_Day"%string = Some (Flt x4) →
  let c1 := clip_lower 0 x1 in let c2 := clip_lower 0 x2 in
  let c3 := clip_lower 0 x3 in let c4 := clip_lower 0 x4 in
  let s := Qsum [c1; c2; c3; c4] in
  ∃ r3, time_budget r = Ok r3 ∧
    r3 !! "Study_Hours_Per_Day"%string = Some (Flt (scaled s c1)) ∧
    r3 !! "Extracurricular_Hours_Per_Day"%string = Some (Flt (scaled s c2)) ∧
    r3 !! "Sleep_Hours_Per_Day"%string = Some (Flt (scaled s c3)) ∧
    r3 !! "Social_Hours_Per_Day"%string = Some (Flt (scaled s c4)) ∧
    r3 !! "Physical_Activity_Hours_Per_Day"%string = Some (Flt (slack s)) ∧
    r3 !! "Sum_Hours"%string = Some (Flt s) ∧
    agree_except ("Sum_Hours"%string :: all_time_vars) r r3.
Proof.
  intros H1 H2 H3 H4 c1 c2 c3 c4 s.
  unfold time_budget, clip_negatives, sum_hours, fix_budget, time_vars_independent.
  cbn [for_each mapM]. run_get.
  change (Qsum [clip_lower 0 x1; clip_lower 0 x2; clip_lower 0 x3;
                clip_lower 0 x4]) with s.
  unfold scaled, slack. destruct (Qltb 24 s) eqn:E; cbn [negb].
  - rewrite rescale_factor_overflow by done. run_get.
    eexists; split; [reflexivity|].
    repeat split; try (simplify_map_eq; reflexivity).
    intros k Hk. unfold all_time_vars, time_vars_independent in Hk.
    cbn [app] in Hk. rewrite !not_elem_of_cons in Hk. destruct_and!.
    by rewrite !lookup_insert_ne by congruence.
  - run_get. eexists; split; [reflexivity|].
    repeat split; try (simplify_map_eq; reflexivity).
    intros k Hk. unfold all_time_vars, time_vars_independent in Hk.
    cbn [app] in Hk. rewrite !not_elem_of_cons in Hk. destruct_and!.
    by rewrite !lookup_insert_ne by congruence.
Qed.

Lemma round_times_ok (r : row) y1 y2 y3 y4 p :
  r !! "Study_Hours_Per_Day"%string = Some (Flt y1) →
  r !! "Extracurricular_Hours_Per_Day"%string = Some (Flt y2) →
  r !! "Sleep_Hours_Per_Day"%string = Some (Flt y3) →
  r !! "Social_Hours_Per_Day"%string = Some (Flt y4) →
  r !! "Physical_Activity_Hours_Per_Day"%string = Some (Flt p) →
  ∃ r4, round_times r = Ok r4 ∧
    r4 !! "Study_Hours_Per_Day"%string = Some (Flt (np_round 1 y1)) ∧
    r4 !! "Extracurricular_Hours_Per_Day"%string = Some (Flt (np_round 1 y2)) ∧
    r4 !! "Sleep_Hours_Per_Day"%string = Some (Flt (np_round 1 y3)) ∧
    r4 !! "Social_Hours_Per_Day"%string = Some (Flt (np_round 1 y4)) ∧
    r4 !! "Physical_Activity_Hours_Per_Day"%string = Some (Flt (np_round 1 p)) ∧
    agree_except all_time_vars r r4.
Proof.
  intros H1 H2 H3 H4 H5.
  unfold round_times, all_time_vars, time_vars_independent.
  cbn [for_each app]. run_get.
  eexists; split; [reflexivity|].
  repeat split; try (simplify_map_eq; reflexivity).
  intros k Hk. rewrite !not_elem_of_cons in Hk. destruct_and!.
  by rewrite !lookup_insert_ne by congruence.
Qed.


(** ** Lists of results *)

Lemma mapM_Ok {A B} (f : A → result B) l k :
  mapM f l = Ok k ↔ Forall2 (λ x y, f x = Ok y) l k.
Proof.
  revert k. induction l as [|x l IH]; intros k; cbn [mapM].
  - split.
    + intros [= <-]. constructor.
    + by intros ->%Forall2_nil_inv_l.
  - split.
    + intros (y & Hy & H)%bind_Ok. apply bind_Ok in H as (k' & Hk' & [= <-]).
      constructor; [done|]. by apply IH.
    + intros (y & k' & Hy & Hk' & ->)%Forall2_cons_inv_l.
      apply IH in Hk'. by rewrite Hy, bind_ret_l, Hk'.
Qed.

Lemma mapM_is_Ok {A B} (f : A → result B) l :
  (∀ x, x ∈ l → ∃ y, f x = Ok y) → ∃ k, mapM f l = Ok k.
Proof.
  induction l as [|x l IH]; intros Hall; cbn [mapM]; [by eexists|].
  destruct (Hall x) as [y ->]; [left|]. destruct IH as [k ->].
  { intros. apply Hall. by right. }
  by eexists.
Qed.

(** ** The label encoder *)

Lemma elem_of_insert_unique s x l : x ∈ insert_unique s l ↔ x = s ∨ x ∈ l.
Proof.
  induction l as [|y l IH]; simpl.
  - rewrite list_elem_of_singleton. set_solver.
  - destruct (String.compare s y) eqn:Hc.
    + apply String.compare_eq_iff in Hc as ->. set_solver.
    + set_solver.
    + rewrite !elem_of_cons, IH. naive_solver.
Qed.

Lemma elem_of_fit x l : x ∈ fit l ↔ x ∈ l.
Proof.
  unfold fit. induction l as [|y l IH]; simpl; [done|].
  rewrite elem_of_insert_unique, IH, elem_of_cons. done.
Qed.

Lemma fit_nonempty l : l ≠ [] → fit l ≠ [].
Proof.
  destruct l as [|y l]; [done|]. intros _ Hnil.
  assert (y ∈ fit (y :: l)) as Hy by (apply elem_of_fit; left).
  rewrite Hnil in Hy. by apply not_elem_of_nil in Hy.
Qed.

(** Clamped into [0 .. k-1], a code is always decoded. *)
Lemma inverse_transform_clip (classes_ : list string) (code : Z) :
  classes_ ≠ [] →
  ∃ v, inverse_transform classes_
         (clipZ 0 (Z.of_nat (length classes_) - 1) code) = Ok v
       ∧ v ∈ classes_.
Proof.
  intros Hne. assert (0 < length classes_)%nat as Hlen.
  { destruct classes_; [done|simpl; lia]. }
  unfold inverse_transform, clipZ.
  set (c := Z.max _ _).
  assert (0 ≤ c < Z.of_nat (length classes_))%Z as Hc by (unfold c; lia).
  destruct (decide (0 ≤ c)%Z); [|lia].
  destruct (lookup_lt_is_Some_2 classes_ (Z.to_nat c)) as [v Hv]; [lia|].
  rewrite Hv. eexists; split; [done|]. by eapply list_elem_of_lookup_2.
Qed.

Lemma inverse_transform_elem classes_ code v :
  inverse_transform classes_ code = Ok v → v ∈ classes_.
Proof.
  unfold inverse_transform. destruct (decide _); [|done].
  destruct (classes_ !! Z.to_nat code) eqn:E; [|done].
  intros [= ->]. by eapply list_elem_of_lookup_2.
Qed.

Lemma df_getitem_elem df c s : df_getitem df c = Ok s → (c, s) ∈ df.
Proof.
  induction df as [|[c' s'] df IH]; simpl; [done|].
  destruct (decide (c' = c)) as [->|].
  - intros [= ->]. left.
  - intros H. right. auto.
Qed.

Lemma df_getitem_NoDup df c s :
  NoDup (df_columns df) → (c, s) ∈ df → df_getitem df c = Ok s.
Proof.
  unfold df_columns. induction df as [|[c' s'] df IH]; simpl.
  - by intros _ ?%not_elem_of_nil.
  - intros [Hc' Hnd]%NoDup_cons [[= -> ->]|Hin]%elem_of_cons.
    + by rewrite decide_True.
    + rewrite decide_False; [auto|].
      intros ->. apply Hc'. apply list_elem_of_fmap. by exists (c, s).
Qed.

Lemma df_getitem_Raise df c e :
  df_getitem df c = Raise e → e = KeyError c ∧ c ∉ df_columns df.
Proof.
  unfold df_columns. induction df as [|[c' s'] df IH]; simpl.
  - intros [= <-]. split; [done|apply not_elem_of_nil].
  - destruct (decide (c' = c)) as [->|]; [done|].
    intros [-> ?]%IH. split; [done|]. rewrite not_elem_of_cons. done.
Qed.


Lemma fit_encoders_acc df cols (acc : gmap string (list string)) c :
  foldl (λ encoders col,
           match df_getitem df col with
           | Ok (ObjS l) => <[col := fit l]> encoders
           | _ => encoders
           end) acc cols !! c
  = match df_getitem df c with
    | Ok (ObjS l) => if decide (c ∈ cols) then Some (fit l) else acc !! c
    | _ => acc !! c
    end.
Proof.
  revert acc. induction cols as [|col cols IH]; intros acc; simpl.
  - destruct (df_getitem df c) as [[]|]; try done.
  - rewrite IH. destruct (decide (col = c)) as [->|Hne].
    + destruct (df_getitem df c) as [[| |l]|]; try done.
      rewrite lookup_insert_eq. rewrite (decide_True (P := c ∈ c :: cols)) by left.
      by destruct (decide _).
    + assert (∀ (m : gmap string (list string)) v, <[col := v]> m !! c = m !! c)
        as Hm by (intros; by rewrite lookup_insert_ne).
      destruct (df_getitem df c) as [[| |l]|];
        destruct (df_getitem df col) as [[| |l']|]; rewrite ?Hm; try done.
      all: destruct (decide (c ∈ cols)), (decide (c ∈ col :: cols)); try done.
      all: set_solver.
Qed.

Lemma encoders_lookup df c cl :
  encoders df !! c = Some cl →
  ∃ l, df_getitem df c = Ok (ObjS l) ∧ cl = fit l.
Proof.
  unfold encoders, fit_encoders. rewrite fit_encoders_acc.
  destruct (df_getitem df c) as [[| |l]|]; try by rewrite lookup_empty.
  destruct (decide _); [|by rewrite lookup_empty].
  intros [= <-]. eauto.
Qed.

Lemma encoders_elem df c l :
  c ∈ cols_categoricas df → df_getitem df c = Ok (ObjS l) →
  encoders df !! c = Some (fit l).
Proof.
  intros Hc Hl. unfold encoders, fit_encoders.
  rewrite fit_encoders_acc, Hl. by rewrite decide_True.
Qed.

Lemma index_of_lookup v l i : index_of v l = Some i → l !! i = Some v.
Proof.
  revert i. induction l as [|x l IH]; intros i; cbn [index_of]; [done|].
  destruct (decide (x = v)) as [->|Hne]; [by intros [= <-]|].
  destruct (index_of v l) as [j|]; [|done]. intros [= <-]. by apply IH.
Qed.

Lemma lookup_index_of v l i :
  NoDup l → l !! i = Some v → index_of v l = Some i.
Proof.
  intros Hnd. revert i. induction Hnd as [|x l Hx Hnd IH]; intros i;
    cbn [index_of]; [done|].
  destruct i as [|i]; cbn.
  - intros [= ->]. by rewrite decide_True.
  - intros Hi. rewrite decide_False.
    + by rewrite (IH i Hi).
    + intros ->. apply Hx. by eapply list_elem_of_lookup_2.
Qed.

Lemma index_of_None v l : index_of v l = None ↔ v ∉ l.
Proof.
  induction l as [|x l IH]; cbn [index_of].
  - split; [intros _; apply not_elem_of_nil|done].
  - rewrite not_elem_of_cons. destruct (decide (x = v)) as [->|Hne].
    + split; [done|]. by intros [? _].
    + destruct (index_of v l) as [j|]; cbn.
      * split; [done|]. intros [_ Hv]. by apply IH in Hv.
      * split; [|done]. intros _. split; [done|]. by apply IH.
Qed.

(** [fit_transform] refuses none of the values it is fitted on. *)
Lemma fit_transform_ok l :
  ∃ codes, fit_transform l = Ok codes ∧ length codes = length l.
Proof.
  unfold fit_transform.
  destruct (mapM_is_Ok (transform (fit l)) l) as [codes Hc].
  - intros v Hv. unfold transform.
    destruct (index_of v (fit l)) eqn:E; [eauto|].
    apply index_of_None in E. by rewrite elem_of_fit in E.
  - exists codes. split; [done|].
    apply mapM_Ok, Forall2_length in Hc. done.
Qed.

(** ** The other steps of the loop body *)

Lemma clean_numerics_spec (r r' : row) :
  clean_numerics r = Ok r' →
  ∃ gpa age,
    r !! "GPA"%string = Some (Flt gpa) ∧ r !! "Age"%string = Some (Flt age) ∧
    r' = <["Age"%string := Int (rint age)]>
           (<["GPA"%string := Flt (np_round 2 (clip 0 4 gpa))]> r).
Proof.
  unfold clean_numerics. intros H. inv_ok. simplify_map_eq. eauto.
Qed.


Lemma decode_column_spec enc col (r r' : row) :
  decode_column enc col r = Ok r' →
  ∃ classes_ v,
    enc !! col = Some classes_ ∧ v ∈ classes_ ∧ r' = <[col := Str v]> r.
Proof.
  unfold decode_column. intros H.
  apply bind_Ok in H as (code & _ & H).
  apply bind_Ok in H as (cl & Hcl & H).
  apply bind_Ok in H as (v & Hv%inverse_transform_elem & [= <-]).
  destruct (enc !! col) as [cl'|]; [|done]. injection Hcl as ->. eauto.
Qed.

Lemma decode_column_ok enc col (r : row) c classes_ :
  r !! col = Some c → numeric c →
  enc !! col = Some classes_ → classes_ ≠ [] →
  ∃ v, decode_column enc col r = Ok (<[col := Str v]> r).
Proof.
  intros Hc Hnum Hcl Hne. unfold decode_column. rewrite Hc, Hcl.
  destruct c as [x|n|s]; [| |done]; rewrite !bind_ret_l; cbv zeta.
  - destruct (inverse_transform_clip classes_ (rint x) Hne) as (v & -> & _).
    eauto.
  - destruct (inverse_transform_clip classes_ n Hne) as (v & -> & _).
    eauto.
Qed.

Lemma decode_categories_spec enc cols (r r' : row) :
  decode_categories enc cols r = Ok r' →
  agree_except cols r r' ∧
  ∀ c, c ∈ cols →
    ∃ classes_ v, enc !! c = Some classes_ ∧ v ∈ classes_
                  ∧ r' !! c = Some (Str v).
Proof.
  unfold decode_categories. revert r.
  induction cols as [|col cols IH]; intros r; cbn [for_each].
  - intros [= <-]. split; [done|]. by intros c ?%not_elem_of_nil.
  - intros (r1 & H1 & H)%bind_Ok.
    apply decode_column_spec in H1 as (cl & v & Hcl & Hv & ->).
    apply IH in H as [Hfr Hin]. split.
    + intros k [? ?]%not_elem_of_cons. rewrite Hfr by done.
      by rewrite lookup_insert_ne.
    + intros c Hc. destruct (decide (c ∈ cols)) as [|Hnot]; [auto|].
      apply elem_of_cons in Hc as [->|]; [|done].
      exists cl, v. rewrite Hfr by done. by rewrite lookup_insert_eq.
Qed.


Lemma stress_level_spec (r r' : row) :
  stress_level r = Ok r' →
  ∃ sleep study,
    r !! "Sleep_Hours_Per_Day"%string = Some (Flt sleep) ∧
    r !! "Study_Hours_Per_Day"%string = Some (Flt study) ∧
    r' = <["Stress_Level"%string :=
             Str (np_select
                    [Qltb sleep 6 || Qltb 8 study;
                     Qleb 6 sleep && Qltb study 6]
                    ["High"; "Low"]%string "Moderate"%string)]> r.
Proof.
  unfold stress_level. intros H. inv_ok. subst. eauto.
Qed.


Lemma reorder_spec columnas (r : row) o :
  reorder columnas r = Ok o →
  o.*1 = columnas ∧ ∀ c v, (c, v) ∈ o → r !! c = Some v.
Proof.
  unfold reorder. intros HH. apply mapM_Ok in HH. revert HH.
  induction 1 as [|c [c' v] cols o H _ IH].
  - split; [done|]. by intros ?? ?%not_elem_of_nil.
  - destruct (r !! c) as [v'|] eqn:E; [|done]. injection H as <- <-.
    destruct IH as [IH1 IH2]. split; [by rewrite fmap_cons, IH1|].
    intros c1 v1 [[= -> ->]|?]%elem_of_cons; auto.
Qed.

Lemma reorder_elem columnas (r : row) o c v :
  reorder columnas r = Ok o → c ∈ columnas → r !! c = Some v → (c, v) ∈ o.
Proof.
  unfold reorder. intros HH. apply mapM_Ok in HH. revert HH.
  induction 1 as [|c0 [c' v'] cols o H _ IH].
  - by intros ?%not_elem_of_nil.
  - intros [->|Hc]%elem_of_cons Hv.
    + rewrite Hv in H. injection H as <- <-. left.
    + right. auto.
Qed.


(** ** The classification of the seed's columns *)

Lemma elem_of_select_dtypes b df c :
  c ∈ select_dtypes b df ↔ ∃ s, (c, s) ∈ df ∧ is_number s = b.
Proof.
  unfold select_dtypes. rewrite list_elem_of_fmap. split.
  - intros ([c' s] & -> & [Hb Hin]%list_elem_of_filter). eauto.
  - intros (s & Hin & Hb). exists (c, s). split; [done|].
    by apply list_elem_of_filter.
Qed.

Lemma select_dtypes_columns b df c :
  c ∈ select_dtypes b df → c ∈ df_columns df.
Proof.
  intros (s & Hin & _)%elem_of_select_dtypes.
  apply list_elem_of_fmap. by exists (c, s).
Qed.


Lemma select_dtypes_disjoint df c :
  NoDup (df_columns df) →
  c ∈ select_dtypes true df → c ∈ select_dtypes false df → False.
Proof.
  intros Hnd (s1 & H1 & E1)%elem_of_select_dtypes
             (s2 & H2 & E2)%elem_of_select_dtypes.
  apply (df_getitem_NoDup _ _ _ Hnd) in H1, H2. congruence.
Qed.

Lemma select_dtypes_NoDup b df :
  NoDup (df_columns df) → NoDup (select_dtypes b df).
Proof.
  intros Hnd. eapply sublist_NoDup; [exact Hnd|].
  unfold select_dtypes, df_columns. apply fmap_sublist, sublist_filter.
Qed.

Lemma select_dtypes_object df c :
  NoDup (df_columns df) → c ∈ select_dtypes false df →
  ∃ l, df_getitem df c = Ok (ObjS l).
Proof.
  intros Hnd (s & Hin & E)%elem_of_select_dtypes.
  destruct s as [| |l]; try done. exists l. by apply df_getitem_NoDup.
Qed.

Lemma elem_of_list_remove_first x l c :
  c ∈ list_remove_first x l → c ∈ l.
Proof.
  induction l as [|y l IH]; simpl; [done|].
  destruct (decide (y = x)); rewrite ?elem_of_cons; naive_solver.
Qed.


Lemma list_remove_first_NoDup x l :
  NoDup l → NoDup (list_remove_first x l) ∧ x ∉ list_remove_first x l.
Proof.
  induction 1 as [|y l Hy Hnd [IH1 IH2]]; simpl.
  - split; [constructor|apply not_elem_of_nil].
  - destruct (decide (y = x)) as [->|Hne]; [done|]. split.
    + constructor; [|done]. by intros ?%elem_of_list_remove_first.
    + rewrite not_elem_of_cons. split; [congruence|done].
Qed.

Lemma cols_categoricas_object df c :
  c ∈ cols_categoricas df → c ∈ select_dtypes false df.
Proof.
  unfold cols_categoricas. destruct (decide _); [|done].
  apply elem_of_list_remove_first.
Qed.


Lemma cols_categoricas_NoDup df :
  NoDup (df_columns df) →
  NoDup (cols_categoricas df) ∧ "Stress_Level"%string ∉ cols_categoricas df.
Proof.
  intros Hnd%(select_dtypes_NoDup false). unfold cols_categoricas.
  destruct (decide _); [by apply list_remove_first_NoDup|done].
Qed.

Lemma elem_of_other_numerics df c :
  c ∈ other_numerics df ↔
  c ∈ select_dtypes true df ∧ (c ∉ time_vars_independent)
  ∧ c ≠ "Physical_Activity_Hours_Per_Day"%string ∧ c ≠ "Student_ID"%string.
Proof. unfold other_numerics. rewrite list_elem_of_filter. naive_solver. Qed.

Lemma elem_of_cols_a_modelar df c :
  c ∈ cols_a_modelar df ↔
  c ∈ time_vars_independent ∨ c ∈ other_numerics df ∨ c ∈ cols_categoricas df.
Proof. unfold cols_a_modelar. by rewrite !elem_of_app. Qed.


(** ** The sampled row *)



Lemma sampled_rows draws df k (m : nat) :
  frame_row (cols_a_modelar df)
    <$> ((λ i, draws k i <$> seq 0 (length (mu df))) <$> seq 0 m)
  = raw_row draws (cols_a_modelar df) k <$> seq 0 m.
Proof.
  rewrite <- list_fmap_compose. apply list_fmap_ext. intros _ i _.
  unfold raw_row, mu. cbn. by rewrite length_fmap.
Qed.

(** ** A valid seed's rows are repaired without an exception *)

Lemma valid_seed_numeric df c :
  valid_schema df → c ∈ time_vars_independent ++ ["GPA"; "Age"]%string →
  c ∈ select_dtypes true df.
Proof. intros (_ & Hall & _). by rewrite Forall_forall in Hall; apply Hall. Qed.

Lemma valid_seed_not_categorical df c :
  valid_schema df → c ∈ time_vars_independent ++ ["GPA"; "Age"]%string →
  c ∉ cols_categoricas df.
Proof.
  intros Hv Hc Hcat%cols_categoricas_object.
  eapply select_dtypes_disjoint; [apply Hv| |done].
  by apply valid_seed_numeric.
Qed.






(** ** One pass through the loop body *)

Lemma reorder_get columnas (r : row) o c :
  reorder columnas r = Ok o →
  out_get o c = if decide (c ∈ columnas) then r !! c else None.
Proof.
  unfold reorder, out_get. intros HH. apply mapM_Ok in HH. revert HH.
  induction 1 as [|c0 [c' v'] cols o H _ IH]; cbn [list_to_map foldr].
  - rewrite lookup_empty. by rewrite decide_False by apply not_elem_of_nil.
  - destruct (r !! c0) as [v0|] eqn:E; [|done]. injection H as <- <-.
    cbn [fst snd]. destruct (decide (c0 = c)) as [->|Hne].
    + rewrite lookup_insert_eq. by rewrite decide_True by left.
    + rewrite lookup_insert_ne by done. fold (list_to_map (M := gmap string cell) o).
      rewrite IH. destruct (decide (c ∈ cols)), (decide (c ∈ c0 :: cols));
        try done; set_solver.
Qed.

Lemma out_get_reorder columnas (r : row) o c v :
  reorder columnas r = Ok o → out_get o c = Some v → r !! c = Some v.
Proof.
  intros Ho. rewrite (reorder_get _ _ _ _ Ho). by destruct (decide _).
Qed.

Lemma wrap64_id z : in_int64 z → wrap64 z = z.
Proof.
  unfold in_int64, wrap64. intros Hz.
  rewrite Z.mod_small by lia. lia.
Qed.

Lemma wrap64_range z : in_int64 (wrap64 z).
Proof.
  unfold in_int64, wrap64.
  pose proof (Z.mod_pos_bound (z + 2 ^ 63) (2 ^ 64)). lia.
Qed.

(** The covariance of a table of at least two rows has no [nan]. *)
Lemma proc_values_length s : length (proc_values s) = series_len s.
Proof.
  destruct s as [l|l|l]; cbn; [by rewrite length_fmap|done|].
  destruct (fit_transform_ok l) as (codes & -> & <-). by rewrite length_fmap.
Qed.



Lemma loop_body_spec T C df draws st chunk st' :
  loop_body T C df draws st = Ok (chunk, st') →
  let n := Z.min C (T - rows_generated st) in
  (0 ≤ n)%Z ∧
  st' = {| rows_generated := rows_generated st + n;
           chunk_counter := chunk_counter st + 1;
           current_id := scalar_add (current_id st) n |} ∧
  ∃ a, current_id st = SInt a ∧
    (0 < n → wrap64 (a + n) = a + n)%Z ∧
    Forall2 (λ i o, ∃ r',
               repair_row df (raw_row draws (cols_a_modelar df)
                                (Z.to_nat (chunk_counter st)) i) = Ok r'
               ∧ reorder (df_columns df)
                   (<["Student_ID"%string := Int (a + Z.of_nat i)]> r') = Ok o)
            (seq 0 (Z.to_nat n)) chunk.
Proof.
  unfold loop_body. cbv zeta. set (n := Z.min C (T - rows_generated st)).
  intros H. apply bind_Ok in H as (datos & Hn & H).
  unfold multivariate_normal in Hn.
  destruct (decide (n < 0)%Z) as [|Hn0]; [done|].
  destruct (decide (Forall _ _)); [|done]. injection Hn as <-.
  rewrite (sampled_rows draws df (Z.to_nat (chunk_counter st))) in H.
  apply bind_Ok in H as (rows & Hrows & H).
  apply bind_Ok in H as (ids & Hids & H).
  apply bind_Ok in H as (rows' & Hset & H).
  apply bind_Ok in H as (out & Hout & [= <- <-]).
  split; [lia|]. split; [done|].
  destruct (current_id st) as [a|]; [|done]. injection Hids as <-.
  exists a. split; [done|].
  unfold setitem in Hset. destruct (decide _) as [Hlen0|]; [|done].
  injection Hset as <-.
  apply mapM_Ok in Hrows, Hout.
  pose proof (Forall2_length _ _ _ Hrows) as Hlen1.
  pose proof (Forall2_length _ _ _ Hout) as Hlen2.
  rewrite length_fmap, length_seq in Hlen1.
  rewrite length_seqZ, <- Hlen1 in Hlen0.
  rewrite length_zip_with, length_seqZ, <- Hlen1 in Hlen2.
  split; [lia|].
  apply Forall2_same_length_lookup. split.
  { rewrite length_seq. lia. }
  intros i j o [-> Hi]%lookup_seq Ho. cbn [Nat.add].
  destruct (Forall2_lookup_r _ _ _ _ _ Hout Ho) as (z & Hz & Hzo).
  apply lookup_zip_with_Some in Hz as (r' & id & -> & Hr' & Hid).
  apply lookup_seqZ in Hid as [-> _].
  destruct (Forall2_lookup_r _ _ _ _ _ Hrows Hr') as (raw & Hraw & Hrep).
  rewrite list_lookup_fmap in Hraw.
  rewrite (lookup_seq_lt 0 _ i) in Hraw by done.
  injection Hraw as <-. eauto.
Qed.


(** The identifiers a batch is written with. *)
Lemma chunk_student_ids df draws k a (n : nat) chunk :
  "Student_ID"%string ∈ df_columns df →
  Forall2 (λ i o, ∃ r',
             repair_row df (raw_row draws (cols_a_modelar df) k i) = Ok r'
             ∧ reorder (df_columns df)
                 (<["Student_ID"%string := Int (a + Z.of_nat i)]> r') = Ok o)
          (seq 0 n) chunk →
  student_ids chunk = Int <$> seqZ a (Z.of_nat n).
Proof.
  intros Hid H. unfold student_ids.
  assert (∀ m, Forall2 (λ i o, out_get o "Student_ID" = Some (Int (a + Z.of_nat i)))
                 (seq m n) chunk →
               omap (λ o, out_get o "Student_ID") chunk
               = Int <$> seqZ (a + Z.of_nat m) (Z.of_nat n)) as Hgen.
  { clear. revert chunk. induction n as [|n IH]; intros chunk m.
    - by intros ->%Forall2_nil_inv_l.
    - cbn [seq]. intros (o & chunk' & Ho & Hrest & ->)%Forall2_cons_inv_l.
      cbn [omap list_omap]. rewrite Ho.
      fold (omap (M := list) (λ o, out_get o "Student_ID") chunk').
      rewrite (IH _ _ Hrest).
      replace (Z.of_nat (S n)) with (Z.succ (Z.of_nat n)) by lia.
      rewrite (seqZ_cons _ (Z.succ _)) by lia.
      rewrite Z.pred_succ. cbn [fmap list_fmap].
      do 3 f_equal. lia. }
  specialize (Hgen 0%nat). rewrite Z.add_0_r in Hgen. apply Hgen.
  eapply Forall2_impl; [exact H|]. intros i o (r' & _ & Ho). cbv beta.
  rewrite (reorder_get _ _ _ _ Ho). rewrite decide_True by done.
  by rewrite lookup_insert_eq.
Qed.

(** ** The loop *)

Lemma synthetic_rows_app sink1 sink2 :
  synthetic_rows (sink1 ++ sink2) = synthetic_rows sink1 ++ synthetic_rows sink2.
Proof. unfold synthetic_rows. apply bind_app. Qed.

Lemma synthetic_rows_snoc sink chunk :
  synthetic_rows (sink ++ [to_csv_a chunk]) = synthetic_rows sink ++ chunk.
Proof.
  rewrite synthetic_rows_app. f_equal. unfold synthetic_rows.
  cbn. apply app_nil_r.
Qed.

(** The figures of the progress log are computed once rows were generated
    and the clock has moved. *)
Lemma eta_min_ok T rows (elapsed : Q) :
  rows ≠ 0%Z → ¬ elapsed == 0 → ∃ x, eta_min T rows elapsed = Ok x.
Proof.
  intros Hr He. unfold eta_min, true_divide.
  destruct (Qeq_bool elapsed 0) eqn:E1; [by apply Qeq_bool_iff in E1|].
  rewrite bind_ret_l.
  destruct (Qeq_bool (inject_Z rows / elapsed) 0) eqn:E2.
  { apply Qeq_bool_iff in E2. exfalso.
    assert (inject_Z rows == 0) as E3.
    { transitivity (inject_Z rows / elapsed * elapsed); [by field|].
      rewrite E2. ring. }
    apply Hr. unfold Qeq in E3. cbn in E3. lia. }
  rewrite bind_ret_l. cbn. eauto.
Qed.


(** A property of the rows of every batch is a property of all rows of the
    file, whenever the run stops. *)
Lemma loop_rows_inv (P : out_row → Prop) (I : state → Prop) T C df draws
    elapsed :
  (∀ st chunk st', I st → loop_body T C df draws st = Ok (chunk, st') →
                   Forall P chunk ∧ I st') →
  ∀ fuel st sink, I st → Forall P (synthetic_rows sink) →
    Forall P (synthetic_rows (loop fuel T C df draws elapsed st sink).1).
Proof.
  intros Hbody fuel. induction fuel as [|fuel IH]; intros st sink HI Hsink;
    cbn [loop]; destruct (decide _); try done.
  destruct (loop_body T C df draws st) as [[chunk st']|e] eqn:E; [|done].
  destruct (Hbody _ _ _ HI E) as [Hchunk HI']. cbv zeta.
  assert (Forall P (synthetic_rows (sink ++ [to_csv_a chunk]))) as Hsink'.
  { rewrite synthetic_rows_snoc. by apply Forall_app. }
  destruct (eta_min _ _ _); [by apply IH|done].
Qed.

Lemma main_rows_inv_raw (P : out_row → Prop) fuel T C df draws elapsed :
  (∀ a0 k i r' a o,
     initial_id df = Ok (SInt a0) →
     repair_row df (raw_row draws (cols_a_modelar df) k i) = Ok r' →
     reorder (df_columns df) (<["Student_ID"%string := Int a]> r') = Ok o →
     P o) →
  Forall P (synthetic_rows (main fuel T C df draws elapsed).1).
Proof.
  intros HP. unfold main. destruct (analyse df) as [[]|]; [|by constructor].
  destruct (initial_id df) as [id0|] eqn:Eid; [|by constructor].
  apply (loop_rows_inv P (λ st, ∀ a, current_id st = SInt a →
                                  ∃ a0, id0 = SInt a0)).
  - intros st chunk st' HI (Hn & -> & a & Ha & _ & Hrows)%loop_body_spec.
    destruct (HI a Ha) as [a0 ->]. split.
    + eapply Forall2_Forall_r; [exact Hrows|]. apply Forall_forall.
      intros i _ o (r' & Hrep & Ho). eauto.
    + cbn. eauto.
  - cbn. intros a ->. eauto.
  - by constructor.
Qed.

Lemma main_rows_inv (P : out_row → Prop) fuel T C df draws elapsed :
  (∀ a0 r r' a o,
     initial_id df = Ok (SInt a0) →
     repair_row df r = Ok r' →
     reorder (df_columns df) (<["Student_ID"%string := Int a]> r') = Ok o →
     P o) →
  Forall P (synthetic_rows (main fuel T C df draws elapsed).1).
Proof. intros HP. apply main_rows_inv_raw. eauto. Qed.


Lemma synthetic_rows_appends sink chunks :
  synthetic_rows (sink ++ (to_csv_a <$> chunks))
  = synthetic_rows sink ++ concat chunks.
Proof.
  rewrite synthetic_rows_app. f_equal. unfold synthetic_rows.
  induction chunks as [|ch chunks IH]; [done|].
  cbn. cbn in IH. by rewrite IH.
Qed.

(** What a run of the loop adds to the output, and how its counters count
    it. *)
Lemma loop_trace T C df draws elapsed fuel st sink :
  ∃ chunks,
    (loop fuel T C df draws elapsed st sink).1 = sink ++ (to_csv_a <$> chunks)
    ∧ ((0 < C)%Z →
       Forall (λ ch, (1 ≤ Z.of_nat (length ch) ≤ C)%Z) chunks)
    ∧ ∀ st', (loop fuel T C df draws elapsed st sink).2 = Done st' →
        rows_generated st'
        = (rows_generated st + Z.of_nat (length (concat chunks)))%Z
        ∧ chunk_counter st'
          = (chunk_counter st + Z.of_nat (length chunks))%Z.
Proof.
  revert st sink. induction fuel as [|fuel IH]; intros st sink; cbn [loop];
    destruct (decide _) as [Hlt|Hge].
  1, 2, 4: exists []; cbn; rewrite app_nil_r; split; [done|];
    split; [by constructor|]; intros st'; try done;
    intros [= <-]; lia.
  destruct (loop_body T C df draws st) as [[chunk st1]|e] eqn:E.
  - apply loop_body_spec in E as (Hn & -> & a & _ & _ & Hrows).
    apply Forall2_length in Hrows. rewrite length_seq in Hrows.
    cbv zeta. destruct (eta_min _ _ _).
    + destruct (IH {| rows_generated :=
                        rows_generated st + Z.min C (T - rows_generated st);
                      chunk_counter := chunk_counter st + 1;
                      current_id :=
                        scalar_add (current_id st)
                          (Z.min C (T - rows_generated st)) |}
                   (sink ++ [to_csv_a chunk]))
        as (chunks & Hsink & Hsize & Hdone).
      exists (chunk :: chunks). split; [|split].
      * rewrite Hsink, <- app_assoc. done.
      * intros HC. constructor; [lia|auto].
      * intros st' Hst'. destruct (Hdone st' Hst') as [Hr Hc].
        cbn in Hr, Hc. cbn [concat length]. rewrite length_app. lia.
    + exists [chunk]. split; [done|]. split; [|done].
      intros HC. constructor; [lia|constructor].
  - exists []. cbn. rewrite app_nil_r. split; [done|].
    split; [by constructor|]. done.
Qed.



(** Whatever the loop appends carries the identifiers that follow
    [current_id], one after the other. *)
Lemma loop_ids T C df draws elapsed :
  "Student_ID"%string ∈ df_columns df →
  ∀ fuel st sink a,
    current_id st = SInt a → in_int64 a →
    ∃ sink',
      (loop fuel T C df draws elapsed st sink).1 = sink ++ sink'
      ∧ student_ids (synthetic_rows sink')
        = Int <$> seqZ a (Z.of_nat (length (synthetic_rows sink'))).
Proof.
  intros Hcol fuel. induction fuel as [|fuel IH]; intros st sink a Ha Hin;
    cbn [loop]; destruct (decide _) as [Hlt|Hge].
  1, 2, 4: exists []; by rewrite app_nil_r.
  destruct (loop_body T C df draws st) as [[chunk st1]|e] eqn:E;
    [|exists []; by rewrite app_nil_r].
  apply loop_body_spec in E as (Hn & -> & a' & Ha' & Hwrap & Hrows).
  assert (a' = a) as -> by congruence.
  set (n := Z.min C (T - rows_generated st)) in *.
  assert (student_ids chunk = Int <$> seqZ a n) as Hids.
  { rewrite <- (Z2Nat.id n) by lia. by eapply chunk_student_ids. }
  assert (length chunk = Z.to_nat n) as Hlen.
  { apply Forall2_length in Hrows. by rewrite length_seq in Hrows. }
  assert (wrap64 (a + n) = a + n)%Z as Hw.
  { destruct (decide (n = 0)%Z) as [Hn0|]; [|apply Hwrap; lia].
    rewrite Hn0.
    rewrite Z.add_0_r. by apply wrap64_id. }
  cbv zeta. destruct (eta_min _ _ _).
  - destruct (IH {| rows_generated := rows_generated st + n;
                    chunk_counter := chunk_counter st + 1;
                    current_id := scalar_add (current_id st) n |}
                 (sink ++ [to_csv_a chunk]) (a + n)%Z)
      as (sink' & Hsink & Hids').
    { cbn [current_id]. rewrite Ha. cbn [scalar_add]. by rewrite Hw. }
    { rewrite <- Hw. apply wrap64_range. }
    exists (to_csv_a chunk :: sink'). split; [by rewrite Hsink, <- app_assoc|].
    change (to_csv_a chunk :: sink') with ([to_csv_a chunk] ++ sink').
    rewrite synthetic_rows_app.
    change (synthetic_rows [to_csv_a chunk]) with (chunk ++ []).
    rewrite app_nil_r. unfold student_ids in *.
    rewrite omap_app, Hids, Hids', <- fmap_app, length_app, Hlen.
    f_equal. rewrite Nat2Z.inj_add, Z2Nat.id by lia.
    rewrite seqZ_app by lia. done.
  - exists [to_csv_a chunk]. split; [done|].
    change (synthetic_rows [to_csv_a chunk]) with (chunk ++ []).
    rewrite app_nil_r, Hids, Hlen, Z2Nat.id by lia. done.
Qed.

(** ** What the repair leaves in a row *)

Lemma not_elem_of_all_time_vars_GPA_Age k :
  k ∈ all_time_vars → k ≠ "GPA"%string ∧ k ≠ "Age"%string
                      ∧ k ≠ "Stress_Level"%string ∧ k ≠ "Student_ID"%string
                      ∧ k ≠ "Sum_Hours"%string.
Proof.
  unfold all_time_vars, time_vars_independent. cbn [app].
  rewrite !elem_of_cons, elem_of_nil. intros H. destruct_or!; by subst.
Qed.

Lemma repair_row_inv_raw df (r r' : row) :
  repair_row df r = Ok r' →
  ∃ x1 x2 x3 x4 (r4 r6 : row) sleep study,
    r !! "Study_Hours_Per_Day"%string = Some (Flt x1) ∧
    r !! "Extracurricular_Hours_Per_Day"%string = Some (Flt x2) ∧
    r !! "Sleep_Hours_Per_Day"%string = Some (Flt x3) ∧
    r !! "Social_Hours_Per_Day"%string = Some (Flt x4) ∧
    let c1 := clip_lower 0 x1 in let c2 := clip_lower 0 x2 in
    let c3 := clip_lower 0 x3 in let c4 := clip_lower 0 x4 in
    let s := Qsum [c1; c2; c3; c4] in
    r4 !! "Study_Hours_Per_Day"%string = Some (Flt (np_round 1 (scaled s c1)))
    ∧ r4 !! "Extracurricular_Hours_Per_Day"%string
      = Some (Flt (np_round 1 (scaled s c2)))
    ∧ r4 !! "Sleep_Hours_Per_Day"%string = Some (Flt (np_round 1 (scaled s c3)))
    ∧ r4 !! "Social_Hours_Per_Day"%string = Some (Flt (np_round 1 (scaled s c4)))
    ∧ r4 !! "Physical_Activity_Hours_Per_Day"%string
      = Some (Flt (np_round 1 (slack s)))
    ∧ (∀ k, k ∈ all_time_vars →
         r6 !! k = r4 !! k ∨ ∃ v, r6 !! k = Some (Str v))
    ∧ (∀ c, c ∈ cols_categoricas df →
         ∃ classes_ v, encoders df !! c = Some classes_ ∧ v ∈ classes_
                       ∧ r6 !! c = Some (Str v))
    ∧ r6 !! "Sleep_Hours_Per_Day"%string = Some (Flt sleep)
    ∧ r6 !! "Study_Hours_Per_Day"%string = Some (Flt study)
    ∧ r' = <["Stress_Level"%string :=
               Str (np_select
                      [Qltb sleep 6 || Qltb 8 study;
                       Qleb 6 sleep && Qltb study 6]
                      ["High"; "Low"]%string "Moderate"%string)]> r6.
Proof.
  unfold repair_row. intros H.
  apply bind_Ok in H as (r3 & E3 & H). apply bind_Ok in H as (r4 & E4 & H).
  apply bind_Ok in H as (r5 & E5 & H). apply bind_Ok in H as (r6 & E6 & E7).
  assert (∃ r1, clip_negatives r = Ok r1) as [r1 E1].
  { unfold time_budget in E3. apply bind_Ok in E3 as (r1 & ? & _). eauto. }
  apply clip_negatives_spec in E1 as (x1 & x2 & x3 & x4 & H1 & H2 & H3 & H4 & _).
  destruct (budget_block_ok r x1 x2 x3 x4 H1 H2 H3 H4)
    as (r3' & E3' & B1 & B2 & B3 & B4 & B5 & _).
  assert (r3' = r3) as -> by congruence.
  destruct (round_times_ok r3 _ _ _ _ _ B1 B2 B3 B4 B5)
    as (r4' & E4' & R1 & R2 & R3 & R4 & R5 & _).
  assert (r4' = r4) as -> by congruence.
  apply clean_numerics_spec in E5 as (gpa & age & _ & _ & ->).
  apply decode_categories_spec in E6 as [Hag6 Hcat6].
  apply stress_level_spec in E7 as (sleep & study & Hsl & Hst & ->).
  exists x1, x2, x3, x4, r4, r6, sleep, study. cbv zeta.
  repeat split; try done.
  intros k Hk. destruct (decide (k ∈ cols_categoricas df)) as [Hc|Hc].
  - right. destruct (Hcat6 k Hc) as (? & v & _ & _ & ?). eauto.
  - left. rewrite Hag6 by done.
    apply not_elem_of_all_time_vars_GPA_Age in Hk as (? & ? & _).
    by rewrite !lookup_insert_ne.
Qed.

Lemma repair_row_inv df (r r' : row) :
  repair_row df r = Ok r' →
  ∃ x1 x2 x3 x4 (r4 r6 : row) sleep study,
    let c1 := clip_lower 0 x1 in let c2 := clip_lower 0 x2 in
    let c3 := clip_lower 0 x3 in let c4 := clip_lower 0 x4 in
    let s := Qsum [c1; c2; c3; c4] in
    r4 !! "Study_Hours_Per_Day"%string = Some (Flt (np_round 1 (scaled s c1)))
    ∧ r4 !! "Extracurricular_Hours_Per_Day"%string
      = Some (Flt (np_round 1 (scaled s c2)))
    ∧ r4 !! "Sleep_Hours_Per_Day"%string = Some (Flt (np_round 1 (scaled s c3)))
    ∧ r4 !! "Social_Hours_Per_Day"%string = Some (Flt (np_round 1 (scaled s c4)))
    ∧ r4 !! "Physical_Activity_Hours_Per_Day"%string
      = Some (Flt (np_round 1 (slack s)))
    ∧ (∀ k, k ∈ all_time_vars →
         r6 !! k = r4 !! k ∨ ∃ v, r6 !! k = Some (Str v))
    ∧ (∀ c, c ∈ cols_categoricas df →
         ∃ classes_ v, encoders df !! c = Some classes_ ∧ v ∈ classes_
                       ∧ r6 !! c = Some (Str v))
    ∧ r6 !! "Sleep_Hours_Per_Day"%string = Some (Flt sleep)
    ∧ r6 !! "Study_Hours_Per_Day"%string = Some (Flt study)
    ∧ r' = <["Stress_Level"%string :=
               Str (np_select
                      [Qltb sleep 6 || Qltb 8 study;
                       Qleb 6 sleep && Qltb study 6]
                      ["High"; "Low"]%string "Moderate"%string)]> r6.
Proof.
  intros (x1 & x2 & x3 & x4 & r4 & r6 & sleep & study & _ & _ & _ & _ & H)
    %repair_row_inv_raw.
  by exists x1, x2, x3, x4, r4, r6, sleep, study.
Qed.

(** A written row shows the cells of the repaired row. *)
Lemma written_cell columnas (r' : row) a o k v :
  reorder columnas (<["Student_ID"%string := Int a]> r') = Ok o →
  k ≠ "Student_ID"%string → out_get o k = Some v → r' !! k = Some v.
Proof.
  intros Ho Hk Hv. apply (out_get_reorder _ _ _ _ _ Ho) in Hv.
  by rewrite lookup_insert_ne in Hv.
Qed.




Lemma Qsum_4 c1 c2 c3 c4 : Qsum [c1; c2; c3; c4] == c1 + c2 + c3 + c4.
Proof. unfold Qsum. cbn [foldl]. ring. Qed.


Lemma scaled_nonneg s c : 0 <= c → 0 <= scaled s c.
Proof.
  intros Hc. unfold scaled. destruct (Qltb 24 s) eqn:E; [|done].
  apply Qltb_lt in E. apply Qmult_le_0_compat; [done|].
  destruct (Qltb DBL_MAX s); [lra|].
  apply Qle_shift_div_l; lra.
Qed.

Lemma slack_nonneg s : 0 <= slack s.
Proof.
  unfold slack. destruct (Qltb 24 s) eqn:E; [lra|].
  apply Qltb_ge in E. lra.
Qed.

Lemma written_hours_raw df (r r' : row) columnas a o :
  repair_row df r = Ok r' →
  reorder columnas (<["Student_ID"%string := Int a]> r') = Ok o →
  ∃ x1 x2 x3 x4,
    r !! "Study_Hours_Per_Day"%string = Some (Flt x1) ∧
    r !! "Extracurricular_Hours_Per_Day"%string = Some (Flt x2) ∧
    r !! "Sleep_Hours_Per_Day"%string = Some (Flt x3) ∧
    r !! "Social_Hours_Per_Day"%string = Some (Flt x4) ∧
    let c1 := clip_lower 0 x1 in let c2 := clip_lower 0 x2 in
    let c3 := clip_lower 0 x3 in let c4 := clip_lower 0 x4 in
    let s := Qsum [c1; c2; c3; c4] in
    (∀ v, out_get o "Study_Hours_Per_Day" = Some (Flt v) →
          v = np_round 1 (scaled s c1))
    ∧ (∀ v, out_get o "Extracurricular_Hours_Per_Day" = Some (Flt v) →
            v = np_round 1 (scaled s c2))
    ∧ (∀ v, out_get o "Sleep_Hours_Per_Day" = Some (Flt v) →
            v = np_round 1 (scaled s c3))
    ∧ (∀ v, out_get o "Social_Hours_Per_Day" = Some (Flt v) →
            v = np_round 1 (scaled s c4))
    ∧ (∀ v, out_get o "Physical_Activity_Hours_Per_Day" = Some (Flt v) →
            v = np_round 1 (slack s)).
Proof.
  intros (x1 & x2 & x3 & x4 & r4 & r6 & sleep & study & X1 & X2 & X3 & X4
          & R1 & R2 & R3 & R4 & R5 & Hkeep & _ & _ & _ & ->)%repair_row_inv_raw
         Ho.
  exists x1, x2, x3, x4. do 4 (split; [done|]). cbv zeta.
  assert (∀ k v, k ∈ all_time_vars → out_get o k = Some (Flt v) →
                 r4 !! k = Some (Flt v)) as Hcell.
  { intros k v Hk Hv.
    pose proof (not_elem_of_all_time_vars_GPA_Age k Hk) as (_ & _ & ? & ? & _).
    apply (written_cell _ _ _ _ _ _ Ho) in Hv; [|done].
    rewrite lookup_insert_ne in Hv by done.
    destruct (Hkeep k Hk) as [<-|[s Hs]]; [done|congruence]. }
  repeat split; intros v Hv; apply Hcell in Hv;
    try (unfold all_time_vars, time_vars_independent; cbn [app];
         rewrite !elem_of_cons; tauto);
    congruence.
Qed.

Lemma written_hours df (r r' : row) columnas a o :
  repair_row df r = Ok r' →
  reorder columnas (<["Student_ID"%string := Int a]> r') = Ok o →
  ∃ c1 c2 c3 c4,
    0 <= c1 ∧ 0 <= c2 ∧ 0 <= c3 ∧ 0 <= c4 ∧
    let s := Qsum [c1; c2; c3; c4] in
    (∀ v, out_get o "Study_Hours_Per_Day" = Some (Flt v) →
          v = np_round 1 (scaled s c1))
    ∧ (∀ v, out_get o "Extracurricular_Hours_Per_Day" = Some (Flt v) →
            v = np_round 1 (scaled s c2))
    ∧ (∀ v, out_get o "Sleep_Hours_Per_Day" = Some (Flt v) →
            v = np_round 1 (scaled s c3))
    ∧ (∀ v, out_get o "Social_Hours_Per_Day" = Some (Flt v) →
            v = np_round 1 (scaled s c4))
    ∧ (∀ v, out_get o "Physical_Activity_Hours_Per_Day" = Some (Flt v) →
            v = np_round 1 (slack s)).
Proof.
  intros Hrep Ho.
  destruct (written_hours_raw _ _ _ _ _ _ Hrep Ho)
    as (x1 & x2 & x3 & x4 & _ & _ & _ & _ & H).
  exists (clip_lower 0 x1), (clip_lower 0 x2), (clip_lower 0 x3),
         (clip_lower 0 x4).
  repeat (split; [apply clip_lower_ge|]). exact H.
Qed.

(** * The claims *)


(** C3. In every row the program appends, after all repair stages and the
    rounding, the residual Physical_Activity_Hours_Per_Day and each of the
    four sampled hour columns are at least 0. *)
Theorem hours_are_nonnegative fuel T C df draws elapsed o k x :
  o ∈ synthetic_rows (main fuel T C df draws elapsed).1 →
  k ∈ all_time_vars →
  out_get o k = Some (Flt x) →
  0 <= x.
Proof.
  intros Ho. revert k x.
  pose proof (main_rows_inv
    (λ o, ∀ k x, k ∈ all_time_vars → out_get o k = Some (Flt x) → 0 <= x)
    fuel T C df draws elapsed) as Hall.
  rewrite Forall_forall in Hall. apply Hall; [|done].
  clear. intros _ r r' id o _ Hrep Hout k x Hk Hx.
  destruct (written_hours _ _ _ _ _ _ Hrep Hout)
    as (c1 & c2 & c3 & c4 & ? & ? & ? & ? & H1 & H2 & H3 & H4 & H5).
  unfold all_time_vars, time_vars_independent in Hk. cbn [app] in Hk.
  rewrite !elem_of_cons, elem_of_nil in Hk.
  destruct Hk as [->|[->|[->|[->|[->|[]]]]]];
    [rewrite (H1 _ Hx)|rewrite (H2 _ Hx)|rewrite (H3 _ Hx)
    |rewrite (H4 _ Hx)|rewrite (H5 _ Hx)];
    apply np_round_nonneg; auto using scaled_nonneg, slack_nonneg.
Qed.

(** C2. In every row the program appends, the stored Stress_Level is the
    label the ordered rule gives on the row's final Sleep and Study hours:
    "High" if sleep < 6 or study > 8; otherwise "Low" if sleep >= 6 and
    study < 6; otherwise "Moderate". *)
Theorem stored_label_follows_rule fuel T C df draws elapsed o sleep study label :
  o ∈ synthetic_rows (main fuel T C df draws elapsed).1 →
  out_get o "Sleep_Hours_Per_Day" = Some (Flt sleep) →
  out_get o "Study_Hours_Per_Day" = Some (Flt study) →
  out_get o "Stress_Level" = Some label →
  ∃ s, label = Str s ∧ stress_rule sleep study s.
Proof.
  intros Ho. revert sleep study label.
  pose proof (main_rows_inv
    (λ o, ∀ sleep study label,
       out_get o "Sleep_Hours_Per_Day" = Some (Flt sleep) →
       out_get o "Study_Hours_Per_Day" = Some (Flt study) →
       out_get o "Stress_Level" = Some label →
       ∃ s, label = Str s ∧ stress_rule sleep study s)
    fuel T C df draws elapsed) as Hall.
  rewrite Forall_forall in Hall. apply Hall; [|done].
  clear. intros _ r r' id o _ Hrep Hout sleep study label Hsl Hst Hlab.
  apply repair_row_inv in Hrep
    as (_ & _ & _ & _ & _ & r6 & sl & st & _ & _ & _ & _ & _ & _ & _
        & Hsl6 & Hst6 & ->).
  apply (written_cell _ _ _ _ _ _ Hout) in Hsl, Hst, Hlab; try done.
  rewrite lookup_insert_ne in Hsl, Hst by done.
  rewrite lookup_insert_eq in Hlab.
  assert (sl = sleep) as -> by congruence.
  assert (st = study) as -> by congruence.
  injection Hlab as <-. eexists; split; [done|]. cbn [np_select].
  destruct (Qltb sleep 6) eqn:E1; cbn [orb].
  { apply rule_high. left. by apply Qltb_lt. }
  destruct (Qltb 8 study) eqn:E2.
  { apply rule_high. right. by apply Qltb_lt. }
  apply Qltb_ge in E1, E2.
  assert (¬ (sleep < 6 ∨ 8 < study)) as Hnot by (intros [?|?]; lra).
  destruct (Qleb 6 sleep) eqn:E3; cbn [andb].
  - destruct (Qltb study 6) eqn:E4.
    + apply rule_low; [done|]. split; [done|by apply Qltb_lt].
    + apply Qltb_ge in E4. apply rule_moderate; [done|]. intros [_ ?]. lra.
  - apply Qleb_gt in E3. lra.
Qed.

(** C4. With distinct column names in the seed, every row the program
    appends holds, in each categorical column (the derived label is not
    one), a string that occurs in that column of the seed; and the decode
    step, which clamps the rounded code into [0, k-1] before the lookup,
    returns a class for every code whenever the column has one. *)
Theorem categories_come_from_seed fuel T C df draws elapsed :
  NoDup (df_columns df) →
  (∀ o c, o ∈ synthetic_rows (main fuel T C df draws elapsed).1 →
          c ∈ cols_categoricas df →
          c ≠ "Stress_Level"%string
          ∧ ∃ s l, out_get o c = Some (Str s)
                   ∧ df_getitem df c = Ok (ObjS l) ∧ s ∈ l)
  ∧ (∀ (r : row) c v l,
       c ∈ cols_categoricas df → df_getitem df c = Ok (ObjS l) → l ≠ [] →
       r !! c = Some v → numeric v →
       ∃ s, decode_column (encoders df) c r = Ok (<[c := Str s]> r) ∧ s ∈ l)
  ∧ (∀ (classes_ : list string) code,
       classes_ ≠ [] →
       ∃ v, inverse_transform classes_
              (clipZ 0 (Z.of_nat (length classes_) - 1) code) = Ok v
            ∧ v ∈ classes_).
Proof.
  intros Hnd. destruct (cols_categoricas_NoDup df Hnd) as [_ Hstress].
  split; [|split].
  - intros o c Ho Hc. split; [by intros ->|]. revert c Hc.
    pose proof (main_rows_inv
      (λ o, ∀ c, c ∈ cols_categoricas df →
          ∃ s l, out_get o c = Some (Str s)
                 ∧ df_getitem df c = Ok (ObjS l) ∧ s ∈ l)
      fuel T C df draws elapsed) as Hall.
    rewrite Forall_forall in Hall. apply Hall; [|done].
    clear o Ho Hall. intros a0 r r' id o Hid Hrep Hout c Hc.
    apply repair_row_inv in Hrep
      as (_ & _ & _ & _ & _ & r6 & sl & st & _ & _ & _ & _ & _ & _ & Hcat
          & _ & _ & ->).
    destruct (Hcat c Hc) as (cl & s & Hcl & Hs & Hr6).
    apply encoders_lookup in Hcl as (l & Hl & ->). rewrite elem_of_fit in Hs.
    exists s, l. split; [|done].
    rewrite (reorder_get _ _ _ _ Hout).
    rewrite decide_True
      by (eapply select_dtypes_columns, cols_categoricas_object, Hc).
    assert (c ≠ "Student_ID"%string) as Hne.
    { intros ->. unfold initial_id in Hid.
      apply bind_Ok in Hid as (ids & Hids & Hid).
      destruct (select_dtypes_object df "Student_ID" Hnd) as [l' Hl'];
        [by apply cols_categoricas_object|].
      rewrite Hl' in Hids. injection Hids as <-. by destruct l'. }
    rewrite !lookup_insert_ne; [done| |]; congruence.
  - intros r c v l Hc Hl Hne Hv Hnum.
    pose proof (encoders_elem df c l Hc Hl) as Henc.
    destruct (decode_column_ok (encoders df) c r v (fit l) Hv Hnum Henc)
      as [s Hs]; [by apply fit_nonempty|].
    exists s. split; [done|].
    apply decode_column_spec in Hs as (cl & s' & Hcl & Hs' & Heq).
    assert (s' = s) as ->.
    { apply (f_equal (λ m : row, m !! c)) in Heq.
      rewrite !lookup_insert_eq in Heq. congruence. }
    rewrite Henc in Hcl. injection Hcl as <-. by apply elem_of_fit.
  - apply inverse_transform_clip.
Qed.

(** ** Before the loop *)








Lemma foldr_max_spec (x : Z) l :
  foldr Z.max x l ∈ x :: l ∧ ∀ i, i ∈ x :: l → (i ≤ foldr Z.max x l)%Z.
Proof.
  induction l as [|y l [IH1 IH2]]; cbn [foldr].
  - split; [left|]. intros i ->%list_elem_of_singleton. lia.
  - split.
    + destruct (Z.max_spec y (foldr Z.max x l)) as [[_ ->]|[_ ->]].
      * apply elem_of_cons in IH1 as [->|?]; [left|right; by right].
      * right; left.
    + intros i [->|[->|Hi]%elem_of_cons]%elem_of_cons.
      * specialize (IH2 x ltac:(left)). lia.
      * lia.
      * specialize (IH2 i ltac:(by right)). lia.
Qed.


(** The run of a valid seed, with enough fuel. *)
Lemma valid_seed_initial_id df T x l :
  valid_seed df → ids_fit df T → (0 ≤ T)%Z →
  df_getitem df "Student_ID" = Ok (IntS (x :: l)) →
  (- 2 ^ 63 ≤ foldr Z.max x l + 1)%Z
  ∧ (foldr Z.max x l + 1 + T < 2 ^ 63)%Z
  ∧ initial_id df = Ok (SInt (foldr Z.max x l + 1)).
Proof.
  intros (_ & _ & Hint) Hfit HT Hid.
  rewrite Forall_forall in Hint.
  pose proof (Hint _ (df_getitem_elem _ _ _ Hid)) as Hall. cbn in Hall.
  destruct (foldr_max_spec x l) as [Hmax _].
  rewrite Forall_forall in Hall. specialize (Hall _ Hmax).
  specialize (Hfit x l Hid). unfold in_int64 in Hall.
  split; [lia|]. split; [done|].
  unfold initial_id. rewrite Hid, bind_ret_l.
  rewrite wrap64_id by (unfold in_int64; lia). done.
Qed.


(** In every run the identifiers of the appended rows follow the initial
    value of the counter. *)
Lemma main_ids fuel T C df draws elapsed x l :
  df_getitem df "Student_ID" = Ok (IntS (x :: l)) →
  let rows := synthetic_rows (main fuel T C df draws elapsed).1 in
  student_ids rows
  = Int <$> seqZ (wrap64 (foldr Z.max x l + 1)) (Z.of_nat (length rows)).
Proof.
  intros Hid. cbv zeta.
  assert ("Student_ID"%string ∈ df_columns df) as Hcol.
  { apply df_getitem_elem in Hid. apply list_elem_of_fmap. by eexists (_, _). }
  unfold main. destruct (analyse df) as [[]|]; [|done].
  unfold initial_id. rewrite Hid, bind_ret_l.
  destruct (loop_ids T C df draws elapsed Hcol fuel
              {| rows_generated := 0; chunk_counter := 0;
                 current_id := SInt (wrap64 (foldr Z.max x l + 1)) |}
              [to_csv_w df] (wrap64 (foldr Z.max x l + 1))
              eq_refl (wrap64_range _))
    as (sink' & -> & Hids).
  change ([to_csv_w df] ++ sink') with (to_csv_w df :: sink').
  change (synthetic_rows (to_csv_w df :: sink'))
    with (synthetic_rows sink'). done.
Qed.



(** C9. With a target of 0, once the steps before the loop have
    succeeded, the body of the loop is never run (no fuel is needed): no
    row is appended, the identifier counter keeps its initial value, and
    the output is the seed table alone. *)
Theorem zero_target_writes_only_the_seed fuel C df draws elapsed id0 :
  analyse df = Ok () → initial_id df = Ok id0 →
  main fuel 0 C df draws elapsed
  = ([to_csv_w df],
     Done {| rows_generated := 0; chunk_counter := 0; current_id := id0 |})
  ∧ synthetic_rows (main fuel 0 C df draws elapsed).1 = [].
Proof.
  intros Han Hid. unfold main. rewrite Han, Hid.
  by destruct fuel.
Qed.

(** ** No step divides by zero *)

Lemma getF_Raise (r : row) c e : getF r c = Raise e → e ≠ ZeroDivide.
Proof.
  unfold getF. destruct (r !! c) as [[]|]; intros [= <-]; done.
Qed.

Lemma for_each_Raise {A B} (P : exn → Prop) (xs : list B)
    (body : B → A → result A) a e :
  (∀ x a e, body x a = Raise e → P e) → for_each xs body a = Raise e → P e.
Proof.
  intros Hbody. revert a. induction xs as [|x xs IH]; intros a; cbn [for_each].
  - done.
  - intros [H|(a' & _ & H)]%bind_Raise; eauto.
Qed.

Lemma mapM_Raise {A B} (P : exn → Prop) (f : A → result B) l e :
  (∀ x e, f x = Raise e → P e) → mapM f l = Raise e → P e.
Proof.
  intros Hf. induction l as [|x l IH]; cbn [mapM]; [done|].
  intros [H|(y & _ & H)]%bind_Raise; [eauto|].
  apply bind_Raise in H as [H|(k & _ & H)]; [auto|done].
Qed.

Ltac inv_raise :=
  repeat match goal with
  | H : (_ ≫= _) = Raise _ |- _ => apply bind_Raise in H as [H|(? & ? & H)]
  | H : getF _ _ = Raise _ |- _ => apply getF_Raise in H; exact H
  | H : Ok _ = Raise _ |- _ => discriminate H
  | H : Raise _ = Raise _ |- _ => injection H as <-; done
  | H : (if ?b then _ else _) = Raise _ |- _ => destruct b eqn:?
  end.

Lemma fix_budget_Raise (r : row) e : fix_budget r = Raise e → e ≠ ZeroDivide.
Proof.
  unfold fix_budget, time_vars_independent. cbn [for_each]. intros H.
  apply bind_Raise in H as [H|(s & Hs & H)]; [inv_raise|].
  destruct (Qltb 24 s) eqn:E; cbn [negb] in H; [|inv_raise].
  apply bind_Raise in H as [H|(? & ? & H)]; [|inv_raise].
  apply bind_Raise in H as [H|(s' & Hs' & H)]; [inv_raise|].
  assert (s' = s) as -> by congruence.
  rewrite rescale_factor_overflow in H by done. rewrite bind_ret_l in H.
  inv_raise.
Qed.

Lemma decode_column_Raise enc c (r : row) e :
  decode_column enc c r = Raise e → e ≠ ZeroDivide.
Proof.
  unfold decode_column, inverse_transform. intros H.
  destruct (r !! c) as [[]|]; destruct (enc !! c);
    repeat (rewrite bind_ret_l in H || cbv zeta in H);
    inv_raise; try done;
    match goal with
    | H : match ?x with _ => _ end = Raise _ |- _ => destruct x; inv_raise
    end.
Qed.

Lemma repair_row_Raise df (r : row) e :
  repair_row df r = Raise e → e ≠ ZeroDivide.
Proof.
  unfold repair_row. intros H.
  apply bind_Raise in H as [H|(r3 & _ & H)].
  { unfold time_budget in H.
    apply bind_Raise in H as [H|(r1 & _ & H)].
    { unfold clip_negatives, time_vars_independent in H.
      cbn [for_each] in H. inv_raise. }
    apply bind_Raise in H as [H|(r2 & _ & H)].
    { unfold sum_hours in H.
      apply bind_Raise in H as [H|(xs & _ & H)]; [|done].
      revert H. apply (mapM_Raise (λ e, e ≠ ZeroDivide)). intros c e'. apply getF_Raise. }
    by apply fix_budget_Raise in H. }
  apply bind_Raise in H as [H|(r4 & _ & H)].
  { unfold round_times, all_time_vars, time_vars_independent in H.
    cbn [for_each app] in H. inv_raise. }
  apply bind_Raise in H as [H|(r5 & _ & H)].
  { unfold clean_numerics in H. inv_raise. }
  apply bind_Raise in H as [H|(r6 & _ & H)].
  { revert H. apply (for_each_Raise (λ e, e ≠ ZeroDivide)). intros ???. apply decode_column_Raise. }
  unfold stress_level in H. inv_raise.
Qed.

Lemma loop_body_Raise T C df draws st e :
  loop_body T C df draws st = Raise e → e ≠ ZeroDivide.
Proof.
  unfold loop_body. cbv zeta. intros H.
  apply bind_Raise in H as [H|(datos & _ & H)].
  { unfold multivariate_normal in H.
    destruct (decide _); [by injection H as <-|].
    destruct (decide _); [done|]. by injection H as <-. }
  apply bind_Raise in H as [H|(rows & _ & H)].
  { revert H. apply (mapM_Raise (λ e, e ≠ ZeroDivide)). intros ??. apply repair_row_Raise. }
  apply bind_Raise in H as [H|(ids & _ & H)].
  { unfold py_range in H. destruct (current_id st); cbn in H; [done|].
    by injection H as <-. }
  apply bind_Raise in H as [H|(rows' & _ & H)].
  { unfold setitem in H. destruct (decide _); [done|]. by injection H as <-. }
  apply bind_Raise in H as [H|(? & _ & H)]; [|done].
  revert H. apply (mapM_Raise (λ e, e ≠ ZeroDivide)). unfold reorder. intros r' e'.
  apply (mapM_Raise (λ e, e ≠ ZeroDivide)). intros c e''. destruct (_ !! c); [done|]. by intros [= <-].
Qed.

(** With a positive chunk size every pass has generated rows by the time
    of the log, so that a clock that moves keeps its divisions defined. *)
Lemma loop_outcome_not_ZeroDivide fuel T C df draws elapsed st sink :
  (0 < C)%Z → clock_moves elapsed → (0 ≤ rows_generated st)%Z →
  (loop fuel T C df draws elapsed st sink).2 ≠ Raised ZeroDivide.
Proof.
  intros HC Hclock. revert st sink.
  induction fuel as [|fuel IH]; intros st sink Hr; cbn [loop];
    destruct (decide _); try done.
  destruct (loop_body T C df draws st) as [[chunk st']|e] eqn:E.
  - apply loop_body_spec in E as (Hn & -> & _). cbv zeta.
    cbn [rows_generated].
    destruct (eta_min_ok T (rows_generated st + Z.min C (T - rows_generated st))
                (elapsed (Z.to_nat (chunk_counter st)))) as [x ->];
      [lia|apply Hclock|].
    apply IH. cbn. lia.
  - cbn. intros [= ->]. by apply loop_body_Raise in E.
Qed.

Lemma df_select_Raise df cols e :
  df_select df cols = Raise e → e ≠ ZeroDivide.
Proof.
  unfold df_select. apply (for_each_Raise (λ e, e ≠ ZeroDivide)). intros c [] e'.
  intros [H|(? & _ & H)]%bind_Raise; [|done].
  by apply df_getitem_Raise in H as [-> _].
Qed.

Lemma main_outcome_not_ZeroDivide fuel T C df draws elapsed :
  (0 < C)%Z → clock_moves elapsed →
  (main fuel T C df draws elapsed).2 ≠ Raised ZeroDivide.
Proof.
  intros HC Hclock.
  unfold main. destruct (analyse df) as [[]|e] eqn:Ea.
  - destruct (initial_id df) as [id0|e] eqn:Ei.
    + by apply loop_outcome_not_ZeroDivide.
    + cbn. intros [= ->]. unfold initial_id in Ei.
      apply bind_Raise in Ei as [H|(ids & _ & H)].
      * by apply df_getitem_Raise in H as [? _].
      * by destruct ids as [[]|?|[]].
  - cbn. intros [= ->]. by apply df_select_Raise in Ea.
Qed.


(** ** The rounding of float64 in lines 85 to 98 *)

Ltac numerals :=
  let u := eval vm_compute in u64 in
  let e := eval vm_compute in eta64 in
  let d := eval vm_compute in DBL_MAX in
  change u64 with u in *; change eta64 with e in *;
  change DBL_MAX with d in *.

Lemma fl_add_bounds x y :
  0 <= x → fl_add x y → x * (1 - u64) <= y ∧ y <= x * (1 + u64).
Proof.
  unfold fl_add. intros Hx H. rewrite (Qabs_pos x) in H by done.
  apply Qabs_Qle_condition in H. numerals. split; lra.
Qed.

Lemma fl_mul_bounds x y :
  0 <= x → fl_mul x y →
  x * (1 - u64) - eta64 <= y ∧ y <= x * (1 + u64) + eta64.
Proof.
  unfold fl_mul. intros Hx H. rewrite (Qabs_pos x) in H by done.
  apply Qabs_Qle_condition in H. numerals. split; lra.
Qed.

(** The float64 sum of four hours is within three roundings of the sum. *)
Lemma sum_hours_f64_bounds c1 c2 c3 c4 s :
  0 <= c1 → 0 <= c2 → 0 <= c3 → 0 <= c4 →
  sum_hours_f64 c1 c2 c3 c4 s →
  let A := c1 + c2 + c3 + c4 in
  (1 - u64) * (1 - u64) * (1 - u64) * A <= s
  ∧ s <= (1 + u64) * (1 + u64) * (1 + u64) * A.
Proof.
  intros ? ? ? ? (s1 & s2 & F1 & F2 & F3) A. subst A.
  apply fl_add_bounds in F1; [|lra].
  assert (0 <= s1) by (revert F1; numerals; lra).
  apply fl_add_bounds in F2; [|lra].
  assert (0 <= s2) by (revert F1 F2; numerals; lra).
  apply fl_add_bounds in F3; [|lra].
  revert F1 F2 F3. numerals. lra.
Qed.

(** The hours of an overflow row sum to 24 up to the roundings of the
    sum, of the quotient and of the four products. *)
Lemma overflow_repair_f64_bound c1 c2 c3 c4 y1 y2 y3 y4 :
  0 <= c1 → 0 <= c2 → 0 <= c3 → 0 <= c4 →
  overflow_repair_f64 c1 c2 c3 c4 y1 y2 y3 y4 →
  Qabs (y1 + y2 + y3 + y4 - 24) <= 1 # 10000000000000.
Proof.
  intros H1 H2 H3 H4 (s & factor & Hs & Hover & Hmax & Hf & Y1 & Y2 & Y3 & Y4).
  apply sum_hours_f64_bounds in Hs; try done. cbv zeta in Hs.
  set (A := c1 + c2 + c3 + c4) in *.
  assert (0 <= A) as HA by (unfold A; lra).
  set (q := 24 / s) in *.
  assert (q * s == 24) as Hqs by (unfold q; field; lra).
  assert (0 < q) as Hq by (unfold q; apply Qlt_shift_div_l; lra).
  (* the quotient against the exact sum *)
  destruct Hs as [Hlo Hhi].
  assert (q * ((1 - u64) * (1 - u64) * (1 - u64) * A) <= q * s) as P1
    by (apply Qmult_le_l; done).
  assert (q * s <= q * ((1 + u64) * (1 + u64) * (1 + u64) * A)) as P2
    by (apply Qmult_le_l; done).
  assert (q * s <= q * DBL_MAX) as P3 by (apply Qmult_le_l; done).
  (* the rounded quotient, and its products *)
  apply fl_mul_bounds in Hf; [|lra]. destruct Hf as [Flo Fhi].
  assert (0 <= factor) as Hfac.
  { revert Flo P3 Hqs Hq. numerals. lra. }
  assert ((q * (1 - u64) - eta64) * A <= factor * A) as F1
    by (apply Qmult_le_compat_r; done).
  assert (factor * A <= (q * (1 + u64) + eta64) * A) as F2
    by (apply Qmult_le_compat_r; done).
  apply fl_mul_bounds in Y1; [|by apply Qmult_le_0_compat].
  apply fl_mul_bounds in Y2; [|by apply Qmult_le_0_compat].
  apply fl_mul_bounds in Y3; [|by apply Qmult_le_0_compat].
  apply fl_mul_bounds in Y4; [|by apply Qmult_le_0_compat].
  assert (c1 * factor + c2 * factor + c3 * factor + c4 * factor
          == factor * A) as HG by (unfold A; ring).
  set (G1 := c1 * factor) in *. set (G2 := c2 * factor) in *.
  set (G3 := c3 * factor) in *. set (G4 := c4 * factor) in *.
  set (F := factor * A) in *.
  assert (q * ((1 - u64) * (1 - u64) * (1 - u64) * A)
          == (1 - u64) * (1 - u64) * (1 - u64) * (q * A)) as E1 by ring.
  assert (q * ((1 + u64) * (1 + u64) * (1 + u64) * A)
          == (1 + u64) * (1 + u64) * (1 + u64) * (q * A)) as E2 by ring.
  assert ((q * (1 - u64) - eta64) * A
          == (1 - u64) * (q * A) - eta64 * A) as E3 by ring.
  assert ((q * (1 + u64) + eta64) * A
          == (1 + u64) * (q * A) + eta64 * A) as E4 by ring.
  rewrite E1 in P1. rewrite E2 in P2. rewrite E3 in F1. rewrite E4 in F2.
  set (P := q * A) in *. clearbody P F G1 G2 G3 G4.
  rewrite Hqs in P1, P2. clear E1 E2 E3 E4 P3 Hqs Flo Fhi.
  apply Qabs_Qle_condition.
  revert Hlo Hhi Hmax Hover P1 P2 F1 F2 Y1 Y2 Y3 Y4 HG HA.
  numerals. intros. split; lra.
Qed.

(** The four hours and the residual of a row that is not in overflow sum
    to 24 up to the roundings of the sum and of the difference. *)
Lemma slack_repair_f64_bound c1 c2 c3 c4 p :
  0 <= c1 → 0 <= c2 → 0 <= c3 → 0 <= c4 →
  slack_repair_f64 c1 c2 c3 c4 p →
  Qabs (c1 + c2 + c3 + c4 + p - 24) <= 1 # 10000000000000.
Proof.
  intros H1 H2 H3 H4 (s & Hs & Hle & Hp).
  apply sum_hours_f64_bounds in Hs; try done. cbv zeta in Hs.
  apply fl_add_bounds in Hp; [|lra].
  apply Qabs_Qle_condition.
  revert Hs Hp Hle. numerals. intros. split; lra.
Qed.

(** C8 (as float64 has it). In a sampled row whose clipped hours sum to
    more than 24, and to a finite float64, the repair multiplies each of
    the four hour columns by 24 / sum_hours and sets
    Physical_Activity_Hours_Per_Day to 0, which the rounding leaves at 0.
    The four products sum to 24 in exact arithmetic; with every operation
    of lines 85 to 92 rounded to float64 they sum to 24 within 1e-13. *)
Theorem overflow_rows_are_rescaled (r : row) x1 x2 x3 x4 :
  r !! "Study_Hours_Per_Day"%string = Some (Flt x1) →
  r !! "Extracurricular_Hours_Per_Day"%string = Some (Flt x2) →
  r !! "Sleep_Hours_Per_Day"%string = Some (Flt x3) →
  r !! "Social_Hours_Per_Day"%string = Some (Flt x4) →
  let c1 := clip_lower 0 x1 in let c2 := clip_lower 0 x2 in
  let c3 := clip_lower 0 x3 in let c4 := clip_lower 0 x4 in
  let sum_hours := Qsum [c1; c2; c3; c4] in
  let factor := 24 / sum_hours in
  24 < sum_hours → sum_hours <= DBL_MAX →
  (∃ r' r'' p,
     time_budget r = Ok r'
     ∧ r' !! "Study_Hours_Per_Day"%string = Some (Flt (c1 * factor))
     ∧ r' !! "Extracurricular_Hours_Per_Day"%string = Some (Flt (c2 * factor))
     ∧ r' !! "Sleep_Hours_Per_Day"%string = Some (Flt (c3 * factor))
     ∧ r' !! "Social_Hours_Per_Day"%string = Some (Flt (c4 * factor))
     ∧ c1 * factor + c2 * factor + c3 * factor + c4 * factor == 24
     ∧ r' !! "Physical_Activity_Hours_Per_Day"%string = Some (Flt 0)
     ∧ round_times r' = Ok r''
     ∧ r'' !! "Physical_Activity_Hours_Per_Day"%string = Some (Flt p)
     ∧ p == 0)
  ∧ (∀ y1 y2 y3 y4,
       overflow_repair_f64 c1 c2 c3 c4 y1 y2 y3 y4 →
       Qabs (y1 + y2 + y3 + y4 - 24) <= 1 # 10000000000000).
Proof.
  intros H1 H2 H3 H4 c1 c2 c3 c4 sum_hours factor Hover Hmax. split.
  - destruct (budget_block_ok r x1 x2 x3 x4 H1 H2 H3 H4)
      as (r' & E & B1 & B2 & B3 & B4 & B5 & _).
    fold c1 c2 c3 c4 sum_hours in B1, B2, B3, B4, B5.
    unfold scaled, slack in B1, B2, B3, B4, B5.
    rewrite (proj2 (Qltb_lt 24 sum_hours) Hover) in B1, B2, B3, B4, B5.
    rewrite (proj2 (Qltb_ge DBL_MAX sum_hours) Hmax) in B1, B2, B3, B4.
    fold factor in B1, B2, B3, B4.
    destruct (round_times_ok r' _ _ _ _ _ B1 B2 B3 B4 B5)
      as (r'' & E' & _ & _ & _ & _ & R5 & _).
    exists r', r'', (np_round 1 0). repeat split; try done.
    pose proof (Qsum_4 c1 c2 c3 c4) as Hs. fold sum_hours in Hs.
    transitivity ((c1 + c2 + c3 + c4) * factor); [ring|].
    rewrite <- Hs. unfold factor. field. lra.
  - intros y1 y2 y3 y4.
    apply overflow_repair_f64_bound; apply clip_lower_ge.
Qed.

(** C10 (as float64 has it). The divisor of 24 / sum_hours is taken only
    where sum_hours > 24: there it is positive, and the factor lies
    strictly between 0 and 1 when the sum is a finite float64; a sum that
    overflowed to inf gives the factor 0.  A row whose sum is at most 24, a
    sum of 0 included, gets its slack without any division, although
    24 / 0 would be an error.  Neither the repair of a row nor a pass of
    the loop body ever ends in a division by zero; a run does not either,
    with a positive chunk size and a clock that moves. *)
Theorem rescale_never_divides_by_zero :
  (∀ s, Qltb 24 s = true →
        0 < s ∧ ∃ factor, rescale_factor s = Ok factor
                          ∧ 0 <= factor ∧ factor < 1
                          ∧ (s <= DBL_MAX → 0 < factor ∧ factor == 24 / s)
                          ∧ (DBL_MAX < s → factor == 0))
  ∧ (∀ s, s == 0 → true_divide 24 s = Raise ZeroDivide)
  ∧ (∀ (r : row) s,
       r !! "Sum_Hours"%string = Some (Flt s) → s <= 24 →
       fix_budget r
       = Ok (<["Physical_Activity_Hours_Per_Day"%string := Flt (24 - s)]> r))
  ∧ (∀ (r : row) e, fix_budget r = Raise e → e ≠ ZeroDivide)
  ∧ (∀ df (r : row), repair_row df r ≠ Raise ZeroDivide)
  ∧ (∀ T C df draws st, loop_body T C df draws st ≠ Raise ZeroDivide)
  ∧ (∀ fuel T C df draws elapsed,
       (0 < C)%Z → clock_moves elapsed →
       (main fuel T C df draws elapsed).2 ≠ Raised ZeroDivide).
Proof.
  split; [|split; [|split; [|split; [|split; [|split]]]]].
  - intros s H. pose proof H as Hlt%Qltb_lt. split; [lra|].
    rewrite rescale_factor_overflow by done.
    destruct (Qltb DBL_MAX s) eqn:E.
    + apply Qltb_lt in E. exists 0. repeat split; try done; lra.
    + apply Qltb_ge in E. exists (24 / s).
      assert (0 < 24 / s) by (apply Qlt_shift_div_l; lra).
      assert (24 / s < 1) by (apply Qlt_shift_div_r; lra).
      repeat split; try done; lra.
  - intros s Hs. unfold true_divide.
    destruct (Qeq_bool s 0) eqn:E; [done|].
    apply Qeq_bool_neq in E. done.
  - intros r s Hs Hle. unfold fix_budget.
    rewrite (getF_lookup _ _ _ Hs), bind_ret_l.
    rewrite (proj2 (Qltb_ge 24 s) Hle). cbn [negb].
    by rewrite bind_ret_l, (getF_lookup _ _ _ Hs), bind_ret_l.
  - apply fix_budget_Raise.
  - intros df r H. by apply repair_row_Raise in H.
  - intros T C df draws st H. by apply loop_body_Raise in H.
  - apply main_outcome_not_ZeroDivide.
Qed.

(** * The claims on a run of three rows in chunks of two *)

Ltac by_compute := apply (bool_decide_unpack _); vm_compute; exact I.

Lemma seed1_valid : valid_seed seed1.
Proof.
  split; [split; [|split; [|split]]|split].
  - by_compute.
  - by_compute.
  - by exists 1%Z, [2%Z].
  - repeat constructor; done.
  - exists 2%nat. split; [lia|]. repeat constructor.
  - repeat constructor; unfold in_int64; lia.
Qed.


Lemma seed1_fits : ids_fit seed1 3.
Proof. intros x l H. vm_compute in H. injection H as <- <-. by vm_compute. Qed.




Lemma row1_written : row1 ∈ synthetic_rows (main 3 3 2 seed1 draws1 clock1).1.
Proof. vm_compute. left. Qed.



Lemma stored_label_follows_rule_witness :
  ∃ s, Str "High" = Str s ∧ stress_rule 4.5 7.5 s.
Proof.
  apply (stored_label_follows_rule 3 3 2 seed1 draws1 clock1 row1);
    [exact row1_written|reflexivity..].
Defined.

Lemma hours_are_nonnegative_witness : 0 <= 0.0.
Proof.
  apply (hours_are_nonnegative 3 3 2 seed1 draws1 clock1 row1
           "Physical_Activity_Hours_Per_Day");
    [exact row1_written| |reflexivity].
  by_compute.
Defined.

Lemma categories_come_from_seed_witness :
  "Gender"%string ≠ "Stress_Level"%string
  ∧ ∃ s l, out_get row1 "Gender" = Some (Str s)
           ∧ df_getitem seed1 "Gender" = Ok (ObjS l) ∧ s ∈ l.
Proof.
  apply (proj1 (categories_come_from_seed 3 3 2 seed1 draws1 clock1
                  (proj1 (proj1 seed1_valid)))).
  - exact row1_written.
  - by_compute.
Defined.






(** The row 10, 9, 5, 1 in float64: the sum is 25, the factor the float64
    next to 0.96. *)
Lemma overflow_rows_are_rescaled_witness :
  let r : row := {[ "Study_Hours_Per_Day"%string := Flt 10;
                    "Extracurricular_Hours_Per_Day"%string := Flt 9;
                    "Sleep_Hours_Per_Day"%string := Flt 5;
                    "Social_Hours_Per_Day"%string := Flt 1 ]} in
  (∃ r' r'' p,
     time_budget r = Ok r'
     ∧ r' !! "Study_Hours_Per_Day"%string = Some (Flt (10 * (24 / 25)))
     ∧ r' !! "Extracurricular_Hours_Per_Day"%string
       = Some (Flt (9 * (24 / 25)))
     ∧ r' !! "Sleep_Hours_Per_Day"%string = Some (Flt (5 * (24 / 25)))
     ∧ r' !! "Social_Hours_Per_Day"%string = Some (Flt (1 * (24 / 25)))
     ∧ 10 * (24 / 25) + 9 * (24 / 25) + 5 * (24 / 25) + 1 * (24 / 25) == 24
     ∧ r' !! "Physical_Activity_Hours_Per_Day"%string = Some (Flt 0)
     ∧ round_times r' = Ok r''
     ∧ r'' !! "Physical_Activity_Hours_Per_Day"%string = Some (Flt p)
     ∧ p == 0)
  ∧ ∃ y1 y2 y3 y4 z1 z2 z3 z4,
      budget_f64 10 9 5 1 = (y1, y2, y3, y4, 0%float)
      ∧ Q_of_f64 y1 = Some z1 ∧ Q_of_f64 y2 = Some z2
      ∧ Q_of_f64 y3 = Some z3 ∧ Q_of_f64 y4 = Some z4
      ∧ Qabs (z1 + z2 + z3 + z4 - 24) <= 1 # 10000000000000.
Proof.
  intros r.
  pose proof (overflow_rows_are_rescaled r 10 9 5 1
                eq_refl eq_refl eq_refl eq_refl eq_refl
                ltac:(by vm_compute)) as [Hexact Hf64].
  split; [exact Hexact|].
  eexists _, _, _, _, _, _, _, _.
  split; [vm_compute; reflexivity|].
  do 4 (split; [vm_compute; reflexivity|]).
  apply Hf64.
  exists 25, (8646911284551352 # 9007199254740992).
  split; [exists 19, 24; repeat split; by vm_compute|].
  repeat split; by vm_compute.
Defined.

(** C8 as the specification has it fails on the program: in float64 the
    rescaled hours of the row 9, 9, 9, 1 do not sum to 24, neither as the
    rationals they are nor when they are added in float64. *)
Lemma overflow_rows_are_rescaled_counterexample :
  ∃ y1 y2 y3 y4 z1 z2 z3 z4,
    PrimFloat.ltb 24 (9 + 9 + 9 + 1) = true
    ∧ budget_f64 9 9 9 1 = (y1, y2, y3, y4, 0%float)
    ∧ Q_of_f64 y1 = Some z1 ∧ Q_of_f64 y2 = Some z2
    ∧ Q_of_f64 y3 = Some z3 ∧ Q_of_f64 y4 = Some z4
    ∧ z1 + z2 + z3 + z4 - 24 == - 21 # 9007199254740992
    ∧ (y1 + y2 + y3 + y4)%float = 23.999999999999996%float.
Proof.
  eexists _, _, _, _, _, _, _, _.
  split; [reflexivity|]. split; [vm_compute; reflexivity|].
  do 4 (split; [vm_compute; reflexivity|]).
  split; by vm_compute.
Qed.

Lemma zero_target_writes_only_the_seed_witness :
  main 0 0 2 seed1 draws1 clock1
  = ([to_csv_w seed1],
     Done {| rows_generated := 0; chunk_counter := 0;
             current_id := SInt 3 |})
  ∧ synthetic_rows (main 0 0 2 seed1 draws1 clock1).1 = [].
Proof.
  apply (zero_target_writes_only_the_seed 0 2 seed1 draws1 clock1 (SInt 3));
    reflexivity.
Defined.

Lemma rescale_never_divides_by_zero_witness :
  0 < 32
  ∧ ∃ factor, rescale_factor 32 = Ok factor
              ∧ 0 <= factor ∧ factor < 1
              ∧ (32 <= DBL_MAX → 0 < factor ∧ factor == 24 / 32)
              ∧ (DBL_MAX < 32 → factor == 0).
Proof.
  apply (proj1 rescale_never_divides_by_zero 32). reflexivity.
Defined.

(** C10 as the specification has it fails on the program: the sum of four
    hours of 2^1023 is over 24 and the factor is 0, outside (0, 1); in
    float64 the sum is inf and 24 / inf is 0.0. *)
Lemma rescale_never_divides_by_zero_counterexample :
  let s := Qsum [draws_huge 0 0 0; draws_huge 0 0 1; draws_huge 0 0 2;
                 draws_huge 0 0 3] in
  Qltb 24 s = true
  ∧ rescale_factor s = Ok 0
  ∧ ¬ 0 < 0
  ∧ (let Sum_Hours := 0x1p1023 + 0x1p1023 + 0x1p1023 + 0x1p1023 in
     PrimFloat.ltb 24 Sum_Hours = true ∧ 24 / Sum_Hours = 0)%float.
Proof. repeat split; by vm_compute. Qed.

(** * Further properties of the loop body *)

Lemma rint_le_int x (n : Z) : x <= inject_Z n → (rint x ≤ n)%Z.
Proof.
  intros Hx. pose proof (Qfloor_le x) as Hlo.
  assert (Qfloor x ≤ n)%Z as Hf.
  { rewrite <- (Qfloor_Z n). by apply Qfloor_resp_le. }
  assert (inject_Z (Qfloor x) < x → (Qfloor x + 1 ≤ n)%Z) as Hstrict.
  { intros Hlt. assert (inject_Z (Qfloor x) < inject_Z n) as H by lra.
    rewrite <- Zlt_Qlt in H. lia. }
  unfold rint. destruct (Qcompare (x - inject_Z (Qfloor x)) (1 # 2)) eqn:Hc.
  - apply Qeq_alt in Hc. destruct (Z.even _); [done|]. apply Hstrict. lra.
  - done.
  - apply Qgt_alt in Hc. apply Hstrict. lra.
Qed.

Lemma np_round_grid d x (hi : Z) :
  0 <= x → x <= inject_Z hi →
  ∃ n, (0 ≤ n ≤ hi * 10 ^ Z.of_nat d)%Z
       ∧ np_round d x = inject_Z n / inject_Z (10 ^ Z.of_nat d).
Proof.
  intros H0 Hhi. exists (rint (x * inject_Z (10 ^ Z.of_nat d))).
  split; [|done].
  assert (0 < inject_Z (10 ^ Z.of_nat d)) as Hs.
  { change 0 with (inject_Z 0). rewrite <- Zlt_Qlt. lia. }
  split.
  - apply rint_nonneg. apply Qmult_le_0_compat; lra.
  - apply rint_le_int. rewrite inject_Z_mult.
    apply Qmult_le_compat_r; lra.
Qed.

Lemma clip_range lo hi x : lo <= hi → lo <= clip lo hi x ∧ clip lo hi x <= hi.
Proof.
  intros Hle. unfold clip.
  pose proof (Q.min_l lo hi Hle) as Hmin.
  pose proof (Q.max_r lo hi Hle) as Hmax.
  set (lo' := Qmin lo hi) in *. set (hi' := Qmax lo hi) in *.
  unfold clip_lower. destruct (Qleb x hi') eqn:E1.
  - apply Qleb_le in E1. destruct (Qltb x lo') eqn:E2; [lra|].
    apply Qltb_ge in E2. lra.
  - destruct (Qltb hi' lo') eqn:E2; [|lra]. apply Qltb_lt in E2. lra.
Qed.

Lemma scaled_le_24 c1 c2 c3 c4 c :
  0 <= c1 → 0 <= c2 → 0 <= c3 → 0 <= c4 → c ∈ [c1; c2; c3; c4] →
  scaled (Qsum [c1; c2; c3; c4]) c <= 24.
Proof.
  intros ? ? ? ? Hc. pose proof (Qsum_4 c1 c2 c3 c4) as Hs.
  set (s := Qsum [c1; c2; c3; c4]) in *.
  assert (0 <= c ∧ c <= s) as [Hc0 Hcs].
  { rewrite !elem_of_cons, elem_of_nil in Hc.
    destruct Hc as [->|[->|[->|[->|[]]]]]; split; lra. }
  unfold scaled. destruct (Qltb 24 s) eqn:E.
  - apply Qltb_lt in E. destruct (Qltb DBL_MAX s); [lra|].
    assert (0 < 24 / s) as Hf by (apply Qlt_shift_div_l; lra).
    assert (s * (24 / s) == 24) as Heq by (field; lra).
    apply Qle_trans with (s * (24 / s)).
    + apply Qmult_le_compat_r; lra.
    + rewrite Heq. apply Qle_refl.
  - apply Qltb_ge in E. lra.
Qed.

Lemma slack_le_24 c1 c2 c3 c4 :
  0 <= c1 → 0 <= c2 → 0 <= c3 → 0 <= c4 →
  slack (Qsum [c1; c2; c3; c4]) <= 24.
Proof.
  intros ? ? ? ?. pose proof (Qsum_4 c1 c2 c3 c4) as Hs.
  set (s := Qsum [c1; c2; c3; c4]) in *.
  unfold slack. destruct (Qltb 24 s); lra.
Qed.

(** X1. Every time field of an appended row is a whole number of tenths
    between 0 and 24. *)
Theorem hours_are_tenths_up_to_24 fuel T C df draws elapsed o k x :
  o ∈ synthetic_rows (main fuel T C df draws elapsed).1 →
  k ∈ all_time_vars →
  out_get o k = Some (Flt x) →
  ∃ n, (0 ≤ n ≤ 240)%Z ∧ x = inject_Z n / 10.
Proof.
  intros Ho. revert k x.
  pose proof (main_rows_inv
    (λ o, ∀ k x, k ∈ all_time_vars → out_get o k = Some (Flt x) →
                 ∃ n, (0 ≤ n ≤ 240)%Z ∧ x = inject_Z n / 10)
    fuel T C df draws elapsed) as Hall.
  rewrite Forall_forall in Hall. apply Hall; [|done].
  clear. intros _ r r' id o _ Hrep Hout k x Hk Hx.
  destruct (written_hours _ _ _ _ _ _ Hrep Hout)
    as (c1 & c2 & c3 & c4 & ? & ? & ? & ? & H1 & H2 & H3 & H4 & H5).
  assert (∀ y, 0 <= y → y <= 24 →
               ∃ n, (0 ≤ n ≤ 240)%Z ∧ np_round 1 y = inject_Z n / 10) as Hgrid.
  { intros y ? ?. apply (np_round_grid 1 y 24); done. }
  unfold all_time_vars, time_vars_independent in Hk. cbn [app] in Hk.
  rewrite !elem_of_cons, elem_of_nil in Hk.
  destruct Hk as [->|[->|[->|[->|[->|[]]]]]];
    [rewrite (H1 _ Hx)|rewrite (H2 _ Hx)|rewrite (H3 _ Hx)
    |rewrite (H4 _ Hx)|rewrite (H5 _ Hx)];
    apply Hgrid;
    auto using scaled_nonneg, slack_nonneg, slack_le_24;
    apply scaled_le_24; try done;
    rewrite !elem_of_cons; auto.
Qed.

Lemma repair_row_cleaned df (r r' : row) :
  repair_row df r = Ok r' →
  ∃ gpa age (r4 r6 : row) label,
    agree_except (cols_categoricas df)
      (<["Age"%string := Int (rint age)]>
         (<["GPA"%string := Flt (np_round 2 (clip 0 4 gpa))]> r4)) r6
    ∧ (∀ c, c ∈ cols_categoricas df → ∃ v, r6 !! c = Some (Str v))
    ∧ r' = <["Stress_Level"%string := Str label]> r6.
Proof.
  unfold repair_row. intros H.
  apply bind_Ok in H as (r3 & _ & H). apply bind_Ok in H as (r4 & _ & H).
  apply bind_Ok in H as (r5 & E5 & H). apply bind_Ok in H as (r6 & E6 & E7).
  apply clean_numerics_spec in E5 as (gpa & age & _ & _ & ->).
  apply decode_categories_spec in E6 as [Hag6 Hcat6].
  apply stress_level_spec in E7 as (sleep & study & _ & _ & ->).
  exists gpa, age, r4, r6. eexists. split; [done|]. split; [|done].
  intros c Hc. destruct (Hcat6 c Hc) as (? & v & _ & _ & ?). eauto.
Qed.

(** X2. The GPA of an appended row, when it is a number, is a whole number
    of hundredths between 0 and 4. *)
Theorem gpa_is_hundredths_up_to_4 fuel T C df draws elapsed o g :
  o ∈ synthetic_rows (main fuel T C df draws elapsed).1 →
  out_get o "GPA" = Some (Flt g) →
  ∃ n, (0 ≤ n ≤ 400)%Z ∧ g = inject_Z n / 100.
Proof.
  intros Ho. revert g.
  pose proof (main_rows_inv
    (λ o, ∀ g, out_get o "GPA" = Some (Flt g) →
               ∃ n, (0 ≤ n ≤ 400)%Z ∧ g = inject_Z n / 100)
    fuel T C df draws elapsed) as Hall.
  rewrite Forall_forall in Hall. apply Hall; [|done].
  clear. intros _ r r' id o _ Hrep Hout g Hg.
  apply repair_row_cleaned in Hrep
    as (gpa & age & r4 & r6 & label & Hag & Hcat & ->).
  apply (written_cell _ _ _ _ _ _ Hout) in Hg; [|done].
  rewrite lookup_insert_ne in Hg by done.
  destruct (decide ("GPA"%string ∈ cols_categoricas df)) as [Hc|Hc].
  { destruct (Hcat _ Hc) as [v Hv]. congruence. }
  rewrite Hag in Hg by done.
  rewrite lookup_insert_ne, lookup_insert_eq in Hg by done.
  injection Hg as <-.
  destruct (clip_range 0 4 gpa) as [? ?]; [lra|].
  apply (np_round_grid 2 _ 4); done.
Qed.

(** X3. The Age of an appended row is never a float: it is an integer, or,
    when the seed stores Age as strings, one of its strings. *)
Theorem age_is_whole fuel T C df draws elapsed o v :
  o ∈ synthetic_rows (main fuel T C df draws elapsed).1 →
  out_get o "Age" = Some v →
  (∃ n, v = Int n)
  ∨ (∃ s, v = Str s ∧ "Age"%string ∈ cols_categoricas df).
Proof.
  intros Ho. revert v.
  pose proof (main_rows_inv
    (λ o, ∀ v, out_get o "Age" = Some v →
               (∃ n, v = Int n)
               ∨ (∃ s, v = Str s ∧ "Age"%string ∈ cols_categoricas df))
    fuel T C df draws elapsed) as Hall.
  rewrite Forall_forall in Hall. apply Hall; [|done].
  clear. intros _ r r' id o _ Hrep Hout v Hv.
  apply repair_row_cleaned in Hrep
    as (gpa & age & r4 & r6 & label & Hag & Hcat & ->).
  apply (written_cell _ _ _ _ _ _ Hout) in Hv; [|done].
  rewrite lookup_insert_ne in Hv by done.
  destruct (decide ("Age"%string ∈ cols_categoricas df)) as [Hc|Hc].
  { destruct (Hcat _ Hc) as [s Hs]. right. exists s. split; [congruence|done]. }
  rewrite Hag in Hv by done. rewrite lookup_insert_eq in Hv.
  left. injection Hv as <-. eauto.
Qed.

(** X4. An appended row has exactly the columns of the seed, in the order
    of the seed. *)
Theorem written_rows_have_seed_columns fuel T C df draws elapsed o :
  o ∈ synthetic_rows (main fuel T C df draws elapsed).1 →
  o.*1 = df_columns df.
Proof.
  pose proof (main_rows_inv (λ o, o.*1 = df_columns df) fuel T C df draws elapsed)
    as Hall.
  rewrite Forall_forall in Hall. apply Hall.
  intros _ r r' id o' _ _ Hout. by apply reorder_spec in Hout as [? _].
Qed.

(** * Further properties of the loop and of the output *)

(** X5. Whatever the seed and however the run ends, the output is empty or
    is the seed table, written once and first, followed by appended batches
    only. *)
Theorem header_is_written_once fuel T C df draws elapsed :
  (main fuel T C df draws elapsed).1 = []
  ∨ ∃ chunks, (main fuel T C df draws elapsed).1 = to_csv_w df :: (to_csv_a <$> chunks).
Proof.
  unfold main. destruct (analyse df) as [[]|]; [|by left].
  right. destruct (initial_id df) as [id0|]; [|by exists []].
  destruct (loop_trace T C df draws elapsed fuel
              {| rows_generated := 0; chunk_counter := 0; current_id := id0 |}
              [to_csv_w df]) as (chunks & -> & _).
  by exists chunks.
Qed.

(** X6. When a run returns, rows_generated is the number of rows it has
    appended and chunk_counter the number of batches it has appended. *)
Theorem counters_count_the_output fuel T C df draws elapsed sink st :
  main fuel T C df draws elapsed = (sink, Done st) →
  ∃ chunks,
    sink = to_csv_w df :: (to_csv_a <$> chunks)
    ∧ rows_generated st = Z.of_nat (length (synthetic_rows sink))
    ∧ chunk_counter st = Z.of_nat (length chunks).
Proof.
  unfold main. destruct (analyse df) as [[]|]; [|done].
  destruct (initial_id df) as [id0|]; [|done].
  destruct (loop_trace T C df draws elapsed fuel
              {| rows_generated := 0; chunk_counter := 0; current_id := id0 |}
              [to_csv_w df]) as (chunks & Hsink & _ & Hdone).
  intros Hrun. rewrite Hrun in Hsink, Hdone. cbn in Hsink.
  destruct (Hdone st eq_refl) as [Hr Hc]. cbn in Hr, Hc.
  exists chunks. split; [done|]. split; [|done].
  rewrite Hsink.
  change (to_csv_w df :: (to_csv_a <$> chunks))
    with ([to_csv_w df] ++ (to_csv_a <$> chunks)).
  rewrite synthetic_rows_appends. cbn. lia.
Qed.

(** X7. With a positive chunk size, every appended batch has at least one
    row and at most CHUNK_SIZE rows. *)
Theorem batches_are_bounded fuel T C df draws elapsed rows :
  (0 < C)%Z →
  to_csv_a rows ∈ (main fuel T C df draws elapsed).1 →
  (1 ≤ Z.of_nat (length rows) ≤ C)%Z.
Proof.
  intros HC. unfold main. destruct (analyse df) as [[]|];
    [|by intros ?%not_elem_of_nil].
  destruct (initial_id df) as [id0|].
  - destruct (loop_trace T C df draws elapsed fuel
                {| rows_generated := 0; chunk_counter := 0;
                   current_id := id0 |}
                [to_csv_w df]) as (chunks & -> & Hsize & _).
    intros [[=]|Hin]%elem_of_cons.
    apply list_elem_of_fmap in Hin as (ch & [= ->] & Hch).
    specialize (Hsize HC). rewrite Forall_forall in Hsize. auto.
  - cbn. by intros [=]%list_elem_of_singleton.
Qed.



(** X9. A negative chunk size stops the run at its first batch with a
    value error: the seed table is written, no row is appended. *)
Theorem negative_chunk_size_is_refused fuel T C df draws elapsed id0 :
  (C < 0)%Z → (0 < T)%Z →
  analyse df = Ok () → initial_id df = Ok id0 →
  main (S fuel) T C df draws elapsed = ([to_csv_w df], Raised ValueError).
Proof.
  intros HC HT Han Hid. unfold main. rewrite Han, Hid. cbn [loop].
  rewrite decide_True by (cbn; lia).
  unfold loop_body, multivariate_normal. cbv zeta. cbn [rows_generated].
  rewrite decide_True by lia. done.
Qed.

(** * Further properties of the label encoder *)

Lemma string_lt_trans a b c : string_lt a b → string_lt b c → string_lt a c.
Proof.
  unfold string_lt.
  change (String.compare a b) with (String_as_OT.cmp a b).
  change (String.compare b c) with (String_as_OT.cmp b c).
  change (String.compare a c) with (String_as_OT.cmp a c).
  rewrite !String_as_OT.cmp_lt. apply String_as_OT.lt_trans.
Qed.

Lemma string_lt_irrefl a : ¬ string_lt a a.
Proof.
  unfold string_lt. intros H.
  pose proof (String.compare_antisym a a) as Ha. rewrite H in Ha. done.
Qed.

Lemma insert_unique_sorted s l :
  StronglySorted string_lt l → StronglySorted string_lt (insert_unique s l).
Proof.
  induction 1 as [|x l Hl IH Hx]; cbn [insert_unique].
  - repeat constructor.
  - destruct (String.compare s x) eqn:Hc.
    + by constructor.
    + constructor; [by constructor|]. constructor; [done|].
      eapply Forall_impl; [exact Hx|]. intros y Hy.
      by eapply string_lt_trans.
    + constructor; [done|]. apply Forall_forall. intros y Hy.
      apply elem_of_insert_unique in Hy as [->|Hy].
      * unfold string_lt. rewrite String.compare_antisym, Hc. done.
      * rewrite Forall_forall in Hx. by apply Hx.
Qed.

Lemma fit_sorted l : StronglySorted string_lt (fit l).
Proof.
  unfold fit. induction l as [|x l IH]; cbn [foldr]; [constructor|].
  by apply insert_unique_sorted.
Qed.

Lemma sorted_NoDup l : StronglySorted string_lt l → NoDup l.
Proof.
  induction 1 as [|x l Hl IH Hx]; constructor; [|done].
  intros Hin. rewrite Forall_forall in Hx.
  by apply (string_lt_irrefl x), Hx.
Qed.

(** X10. The classes of a fitted encoder are the distinct strings of the
    column, in strictly increasing order. *)
Theorem classes_are_sorted_and_distinct l :
  StronglySorted string_lt (fit l)
  ∧ NoDup (fit l)
  ∧ ∀ x, x ∈ fit l ↔ x ∈ l.
Proof.
  split; [apply fit_sorted|]. split; [apply sorted_NoDup, fit_sorted|].
  intros x. apply elem_of_fit.
Qed.

(** X11. Encoding and decoding are inverse to each other on the fitted
    strings and on the codes in range: every string of the column has a
    code in [0, k-1] that decodes to it, a decoded code encodes back to
    itself, a string that is not in the column is refused, and
    [fit_transform] encodes the whole column. *)
Theorem encode_decode_round_trip l :
  (∀ v, v ∈ l →
     ∃ code, transform (fit l) v = Ok code
             ∧ (0 ≤ code < Z.of_nat (length (fit l)))%Z
             ∧ inverse_transform (fit l) code = Ok v)
  ∧ (∀ code v, inverse_transform (fit l) code = Ok v →
               transform (fit l) v = Ok code)
  ∧ (∀ v, v ∉ l → transform (fit l) v = Raise ValueError)
  ∧ ∃ codes, fit_transform l = Ok codes ∧ length codes = length l.
Proof.
  assert (∀ v, v ∈ l →
     ∃ code, transform (fit l) v = Ok code
             ∧ (0 ≤ code < Z.of_nat (length (fit l)))%Z
             ∧ inverse_transform (fit l) code = Ok v) as Henc.
  { intros v Hv%elem_of_fit. unfold transform, inverse_transform.
    destruct (index_of v (fit l)) as [i|] eqn:E.
    - apply index_of_lookup in E. exists (Z.of_nat i).
      pose proof (lookup_lt_Some _ _ _ E). split; [done|]. split; [lia|].
      rewrite decide_True by lia. by rewrite Nat2Z.id, E.
    - by apply index_of_None in E. }
  split; [done|]. split; [|split].
  - intros code v. unfold inverse_transform, transform.
    destruct (decide (0 ≤ code)%Z); [|done].
    destruct (fit l !! Z.to_nat code) as [v'|] eqn:E; [|done].
    intros [= ->].
    rewrite (lookup_index_of v (fit l) _ (sorted_NoDup _ (fit_sorted l)) E).
    f_equal. lia.
  - intros v Hv. unfold transform.
    rewrite <- elem_of_fit in Hv. apply index_of_None in Hv. by rewrite Hv.
  - unfold fit_transform.
    destruct (mapM_is_Ok (transform (fit l)) l) as [codes Hc].
    { intros v Hv. destruct (Henc v Hv) as (code & ? & _). eauto. }
    exists codes. split; [done|]. apply mapM_Ok in Hc.
    by apply Forall2_length in Hc.
Qed.

(** X12. The decode step takes a code below 0 to the first class, a code
    above k-1 to the last class, and leaves a code in range as it is. *)
Theorem decode_clamps_to_the_ends (classes_ : list string) code first_ last_ :
  head classes_ = Some first_ → last classes_ = Some last_ →
  let k := Z.of_nat (length classes_) in
  ((code ≤ 0)%Z → inverse_transform classes_ (clipZ 0 (k - 1) code) = Ok first_)
  ∧ ((k - 1 ≤ code)%Z →
     inverse_transform classes_ (clipZ 0 (k - 1) code) = Ok last_)
  ∧ ((0 ≤ code < k)%Z → clipZ 0 (k - 1) code = code).
Proof.
  intros Hhd Hlast k.
  assert (0 < k)%Z as Hk.
  { unfold k. destruct classes_; [done|cbn; lia]. }
  split; [|split].
  - intros Hle. replace (clipZ 0 (k - 1) code) with 0%Z by (unfold clipZ; lia).
    unfold inverse_transform. cbn. rewrite <- head_lookup, Hhd. done.
  - intros Hge.
    replace (clipZ 0 (k - 1) code) with (k - 1)%Z by (unfold clipZ; lia).
    unfold inverse_transform. rewrite decide_True by lia.
    rewrite last_lookup in Hlast.
    replace (Z.to_nat (k - 1)) with (Nat.pred (length classes_))
      by (unfold k; lia).
    by rewrite Hlast.
  - intros ?. unfold clipZ. lia.
Qed.

Lemma rint_unique x (n : Z) : Qabs (x - inject_Z n) < 1 # 2 → rint x = n.
Proof.
  intros [Hlo Hhi]%Qabs_Qlt_condition.
  destruct (rint_near x) as [H1 H2].
  assert (inject_Z (rint x) < inject_Z n + 1) as Ha by lra.
  assert (inject_Z n - 1 < inject_Z (rint x)) as Hb by lra.
  rewrite <- inject_Z_succ, <- Zlt_Qlt in Ha.
  assert (inject_Z (n - 1) < inject_Z (rint x)) as Hb'.
  { unfold Z.sub. rewrite inject_Z_plus. exact Hb. }
  rewrite <- Zlt_Qlt in Hb'. lia.
Qed.

(** X13. A sampled value that lies less than one half away from the code of
    a string of the seed column is decoded to that string. *)
Theorem nearest_code_is_decoded df (r : row) c l v code x :
  c ∈ cols_categoricas df → df_getitem df c = Ok (ObjS l) →
  transform (fit l) v = Ok code →
  r !! c = Some (Flt x) → Qabs (x - inject_Z code) < 1 # 2 →
  decode_column (encoders df) c r = Ok (<[c := Str v]> r).
Proof.
  intros Hc Hl Hcode Hx Hnear. unfold decode_column.
  rewrite Hx, (encoders_elem df c l Hc Hl), !bind_ret_l. cbv zeta.
  rewrite (rint_unique x code Hnear).
  unfold transform in Hcode.
  destruct (index_of v (fit l)) as [i|] eqn:E; [|done].
  injection Hcode as <-. apply index_of_lookup in E.
  pose proof (lookup_lt_Some _ _ _ E).
  replace (clipZ 0 (Z.of_nat (length (fit l)) - 1) (Z.of_nat i))
    with (Z.of_nat i) by (unfold clipZ; lia).
  unfold inverse_transform. rewrite decide_True by lia.
  by rewrite Nat2Z.id, E, bind_ret_l.
Qed.

(** * Further properties of the time budget, the schema and the log *)

Lemma clip_lower_id x : 0 <= x → clip_lower 0 x = x.
Proof.
  intros Hx. unfold clip_lower. destruct (Qltb x 0) eqn:E; [|done].
  apply Qltb_lt in E. lra.
Qed.

Lemma clip_lower_neg x : x < 0 → clip_lower 0 x = 0.
Proof. intros Hx. unfold clip_lower. by rewrite (proj2 (Qltb_lt x 0) Hx). Qed.

(** X14. In a sampled row whose clipped hours sum to at most 24, the repair
    leaves each hour column at its clipped value (a negative draw at 0, any
    other draw as it is) and gives the residual column 24 less their sum.
    With the sum and the difference rounded to float64, the five fields
    sum to 24 within 1e-13 before the rounding to one decimal. *)
Theorem slack_rows_keep_their_hours (r : row) x1 x2 x3 x4 :
  r !! "Study_Hours_Per_Day"%string = Some (Flt x1) →
  r !! "Extracurricular_Hours_Per_Day"%string = Some (Flt x2) →
  r !! "Sleep_Hours_Per_Day"%string = Some (Flt x3) →
  r !! "Social_Hours_Per_Day"%string = Some (Flt x4) →
  let c1 := clip_lower 0 x1 in let c2 := clip_lower 0 x2 in
  let c3 := clip_lower 0 x3 in let c4 := clip_lower 0 x4 in
  let sum_hours := Qsum [c1; c2; c3; c4] in
  sum_hours <= 24 →
  (∃ r',
     time_budget r = Ok r'
     ∧ r' !! "Study_Hours_Per_Day"%string = Some (Flt c1)
     ∧ r' !! "Extracurricular_Hours_Per_Day"%string = Some (Flt c2)
     ∧ r' !! "Sleep_Hours_Per_Day"%string = Some (Flt c3)
     ∧ r' !! "Social_Hours_Per_Day"%string = Some (Flt c4)
     ∧ r' !! "Physical_Activity_Hours_Per_Day"%string
       = Some (Flt (24 - sum_hours))
     ∧ agree_except ("Sum_Hours"%string :: all_time_vars) r r')
  ∧ (∀ p, slack_repair_f64 c1 c2 c3 c4 p →
          Qabs (c1 + c2 + c3 + c4 + p - 24) <= 1 # 10000000000000)
  ∧ (∀ x, 0 <= x → clip_lower 0 x = x)
  ∧ (∀ x, x < 0 → clip_lower 0 x = 0).
Proof.
  intros H1 H2 H3 H4 c1 c2 c3 c4 sum_hours Hle.
  destruct (budget_block_ok r x1 x2 x3 x4 H1 H2 H3 H4)
    as (r' & E & B1 & B2 & B3 & B4 & B5 & _ & Hag).
  fold c1 c2 c3 c4 sum_hours in B1, B2, B3, B4, B5.
  unfold scaled, slack in B1, B2, B3, B4, B5.
  rewrite (proj2 (Qltb_ge 24 sum_hours) Hle) in B1, B2, B3, B4, B5.
  split; [by exists r'|]. split; [|split].
  - intros p. apply slack_repair_f64_bound; apply clip_lower_ge.
  - apply clip_lower_id.
  - apply clip_lower_neg.
Qed.

Lemma other_numerics_NoDup df :
  NoDup (df_columns df) → NoDup (other_numerics df).
Proof.
  intros Hnd. unfold other_numerics. apply NoDup_filter.
  by apply select_dtypes_NoDup.
Qed.

(** X15. The residual column and the identifier column are among the
    sampled columns only if the seed stores them as strings, and, with
    distinct column names, the label column only if the seed stores it as
    numbers; the sampled columns of a seed with a valid schema are pairwise
    distinct. *)
Theorem derived_columns_are_not_sampled df :
  ("Physical_Activity_Hours_Per_Day"%string ∈ cols_a_modelar df →
   "Physical_Activity_Hours_Per_Day"%string ∈ select_dtypes false df)
  ∧ ("Student_ID"%string ∈ cols_a_modelar df →
     "Student_ID"%string ∈ select_dtypes false df)
  ∧ (NoDup (df_columns df) → "Stress_Level"%string ∈ cols_a_modelar df →
     "Stress_Level"%string ∈ select_dtypes true df)
  ∧ (valid_schema df → NoDup (cols_a_modelar df)).
Proof.
  split; [|split; [|split]].
  - intros [Hc|[Hc|Hc]]%elem_of_cols_a_modelar.
    + unfold time_vars_independent in Hc.
      rewrite !elem_of_cons, elem_of_nil in Hc. destruct_or!; done.
    + apply elem_of_other_numerics in Hc as (_ & _ & ? & _). done.
    + by apply cols_categoricas_object.
  - intros [Hc|[Hc|Hc]]%elem_of_cols_a_modelar.
    + unfold time_vars_independent in Hc.
      rewrite !elem_of_cons, elem_of_nil in Hc. destruct_or!; done.
    + apply elem_of_other_numerics in Hc as (_ & _ & _ & ?). done.
    + by apply cols_categoricas_object.
  - intros Hnd [Hc|[Hc|Hc]]%elem_of_cols_a_modelar.
    + unfold time_vars_independent in Hc.
      rewrite !elem_of_cons, elem_of_nil in Hc. destruct_or!; done.
    + by apply elem_of_other_numerics in Hc as (? & _).
    + by apply cols_categoricas_NoDup in Hc.
  - intros Hv. pose proof Hv as (Hnd & _).
    unfold cols_a_modelar. apply NoDup_app. split; [|split].
    + apply (bool_decide_unpack _). by vm_compute.
    + intros c Hc [Ho|Hcat]%elem_of_app.
      * by apply elem_of_other_numerics in Ho as (_ & ? & _).
      * eapply valid_seed_not_categorical; [done| |done].
        apply elem_of_app. by left.
    + apply NoDup_app. split; [by apply other_numerics_NoDup|].
      split; [|by apply cols_categoricas_NoDup].
      intros c Ho%elem_of_other_numerics Hcat%cols_categoricas_object.
      destruct Ho as (Ho & _). by eapply select_dtypes_disjoint.
Qed.

(** X16. The estimate of the remaining minutes is computed, and is not
    negative, whenever some row has been generated, the target is not
    exceeded and the clock has advanced; it ends in a division by zero when
    no row has been generated or the clock has not advanced.  A pass of the
    loop body with a positive chunk size leaves rows_generated positive and
    at most the target; with a chunk size of 0 it leaves it at 0. *)
Theorem progress_estimate T :
  (∀ rows elapsed,
     (0 < rows ≤ T)%Z → 0 < elapsed →
     ∃ eta, eta_min T rows elapsed = Ok eta ∧ 0 <= eta
            ∧ eta == inject_Z (T - rows) * elapsed / inject_Z rows / 60)
  ∧ (∀ elapsed, eta_min T 0 elapsed = Raise ZeroDivide)
  ∧ (∀ rows elapsed, elapsed == 0 → eta_min T rows elapsed = Raise ZeroDivide)
  ∧ (∀ C df draws st chunk st',
       (0 < C)%Z → (0 ≤ rows_generated st < T)%Z →
       loop_body T C df draws st = Ok (chunk, st') →
       (0 < rows_generated st' ≤ T)%Z)
  ∧ (∀ df draws st chunk st',
       rows_generated st = 0%Z → (0 < T)%Z →
       loop_body T 0 df draws st = Ok (chunk, st') →
       rows_generated st' = 0%Z).
Proof.
  split; [|split; [|split; [|split]]].
  - intros rows elapsed [Hr HT] He. unfold eta_min, true_divide.
    assert (0 < inject_Z rows) as Hr'.
    { change 0 with (inject_Z 0). by rewrite <- Zlt_Qlt. }
    assert (0 <= inject_Z (T - rows)) as HT'.
    { change 0 with (inject_Z 0). rewrite <- Zle_Qle. lia. }
    assert (0 < inject_Z rows / elapsed) as Hs
      by (apply Qlt_shift_div_l; lra).
    destruct (Qeq_bool elapsed 0) eqn:E1.
    { apply Qeq_bool_iff in E1. lra. }
    rewrite bind_ret_l.
    destruct (Qeq_bool (inject_Z rows / elapsed) 0) eqn:E2.
    { apply Qeq_bool_iff in E2. lra. }
    rewrite bind_ret_l. change (Qeq_bool 60 0) with false. cbv iota.
    eexists. split; [done|]. split.
    + apply Qle_shift_div_l; [lra|]. rewrite Qmult_0_l.
      apply Qle_shift_div_l; [done|]. lra.
    + field. split; lra.
  - intros elapsed. unfold eta_min, true_divide.
    destruct (Qeq_bool elapsed 0) eqn:E1; [done|]. rewrite bind_ret_l.
    destruct (Qeq_bool (inject_Z 0 / elapsed) 0) eqn:E2; [done|].
    apply Qeq_bool_neq in E2. destruct E2. unfold Qdiv. ring.
  - intros rows elapsed He. unfold eta_min, true_divide.
    by rewrite (proj2 (Qeq_bool_iff elapsed 0) He).
  - intros C df draws st chunk st' HC Hr (_ & -> & _)%loop_body_spec.
    cbn. lia.
  - intros df draws st chunk st' Hr HT (_ & -> & _)%loop_body_spec.
    cbn. lia.
Qed.

(** X17. In every run the identifiers of the appended rows are pairwise
    distinct; after a valid seed whose identifiers fit they are integers
    greater than every identifier of the seed. *)
Theorem generated_identifiers_are_new fuel T C df draws elapsed x l :
  df_getitem df "Student_ID" = Ok (IntS (x :: l)) →
  NoDup (student_ids (synthetic_rows (main fuel T C df draws elapsed).1))
  ∧ (valid_seed df → ids_fit df T → (0 ≤ T)%Z →
     ∀ id,
       id ∈ student_ids (synthetic_rows (main fuel T C df draws elapsed).1) →
       ∃ n, id = Int n ∧ ∀ i, i ∈ x :: l → (i < n)%Z).
Proof.
  intros Hid.
  pose proof (main_ids fuel T C df draws elapsed x l Hid) as Hids.
  cbv zeta in Hids. rewrite Hids. split.
  - apply NoDup_fmap_2; [by intros ?? [=]|]. apply NoDup_seqZ.
  - intros Hv Hfit HT id (n & -> & Hn)%list_elem_of_fmap.
    exists n. split; [done|].
    destruct (valid_seed_initial_id df T x l Hv Hfit HT Hid) as (? & ? & _).
    rewrite wrap64_id in Hn by (unfold in_int64; lia).
    apply elem_of_seqZ in Hn. intros i Hi.
    destruct (foldr_max_spec x l) as [_ Hmax]. specialize (Hmax i Hi). lia.
Qed.

(** ** The sampler and the log *)

Lemma df_proc_short df c :
  Forall (λ cs, (series_len cs.2 < 2)%nat) df → (length (df_proc df c) < 2)%nat.
Proof.
  intros Hshort. unfold df_proc.
  destruct (df_getitem df c) as [s|] eqn:E; [|cbn; lia].
  rewrite proc_values_length. apply df_getitem_elem in E.
  rewrite Forall_forall in Hshort. apply (Hshort _ E).
Qed.

(** X19. A seed of fewer than two rows has no covariance: with a target
    above 0 and a chunk size that is not negative, the run stops at the
    sampler of its first batch, when the seed table has been written and
    no row appended. *)
Theorem seed_without_covariance_is_refused fuel T C df draws elapsed id0 :
  Forall (λ cs, (series_len cs.2 < 2)%nat) df →
  (0 ≤ C)%Z → (0 < T)%Z →
  analyse df = Ok () → initial_id df = Ok id0 →
  main (S fuel) T C df draws elapsed = ([to_csv_w df], Raised LinAlgError).
Proof.
  intros Hshort HC HT Han Hid. unfold main. rewrite Han, Hid. cbn [loop].
  rewrite decide_True by (cbn; lia).
  unfold loop_body, multivariate_normal. cbv zeta. cbn [rows_generated].
  rewrite decide_False by lia. rewrite decide_False; [done|].
  unfold sigma, cols_a_modelar, time_vars_independent. cbn [app fmap list_fmap].
  intros [Hrow _]%Forall_cons. apply Forall_cons in Hrow as [[v Hv] _].
  unfold cov in Hv.
  pose proof (df_proc_short df "Study_Hours_Per_Day" Hshort) as Hlen.
  rewrite decide_True in Hv; [done|]. rewrite length_zip. lia.
Qed.


(** * The further properties on the run of three rows *)

Lemma gpa_is_hundredths_up_to_4_witness :
  ∃ n, (0 ≤ n ≤ 400)%Z ∧ 3.46 = inject_Z n / 100.
Proof.
  apply (gpa_is_hundredths_up_to_4 3 3 2 seed1 draws1 clock1 row1);
    [exact row1_written|reflexivity].
Defined.

Lemma age_is_whole_witness :
  (∃ n, Int 20 = Int n)
  ∨ (∃ s, Int 20 = Str s ∧ "Age"%string ∈ cols_categoricas seed1).
Proof.
  apply (age_is_whole 3 3 2 seed1 draws1 clock1 row1);
    [exact row1_written|reflexivity].
Defined.

Lemma hours_are_tenths_up_to_24_witness :
  ∃ n, (0 ≤ n ≤ 240)%Z ∧ 7.5 = inject_Z n / 10.
Proof.
  apply (hours_are_tenths_up_to_24 3 3 2 seed1 draws1 clock1 row1
           "Study_Hours_Per_Day");
    [exact row1_written|by_compute|reflexivity].
Defined.

Lemma written_rows_have_seed_columns_witness : row1.*1 = df_columns seed1.
Proof.
  apply (written_rows_have_seed_columns 3 3 2 seed1 draws1 clock1 row1).
  exact row1_written.
Defined.

Lemma counters_count_the_output_witness :
  ∃ chunks,
    (main 3 3 2 seed1 draws1 clock1).1 = to_csv_w seed1 :: (to_csv_a <$> chunks)
    ∧ 3%Z = Z.of_nat (length (synthetic_rows (main 3 3 2 seed1 draws1 clock1).1))
    ∧ 2%Z = Z.of_nat (length chunks).
Proof.
  apply (counters_count_the_output 3 3 2 seed1 draws1 clock1
           (main 3 3 2 seed1 draws1 clock1).1
           {| rows_generated := 3; chunk_counter := 2;
              current_id := SInt 6 |}).
  vm_compute. reflexivity.
Defined.

Lemma batches_are_bounded_witness :
  (1 ≤ Z.of_nat (length [row1]) ≤ 1)%Z.
Proof.
  apply (batches_are_bounded 1 1 1 seed1 draws1 clock1 [row1]); [lia|].
  vm_compute. right. left.
Defined.


Lemma negative_chunk_size_is_refused_witness :
  main 1 3 (-2) seed1 draws1 clock1 = ([to_csv_w seed1], Raised ValueError).
Proof.
  apply (negative_chunk_size_is_refused 0 3 (-2) seed1 draws1 clock1 (SInt 3));
    [lia|lia|reflexivity|reflexivity].
Defined.

Lemma encode_decode_round_trip_witness :
  ∃ code, transform (fit ["b"; "a"; "b"]%string) "b" = Ok code
          ∧ (0 ≤ code < Z.of_nat (length (fit ["b"; "a"; "b"]%string)))%Z
          ∧ inverse_transform (fit ["b"; "a"; "b"]%string) code = Ok "b"%string.
Proof.
  apply (proj1 (encode_decode_round_trip ["b"; "a"; "b"]%string)).
  by_compute.
Defined.

Lemma decode_clamps_to_the_ends_witness :
  inverse_transform ["a"; "b"; "c"]%string (clipZ 0 (3 - 1) 7) = Ok "c"%string.
Proof.
  apply (proj1 (proj2 (decode_clamps_to_the_ends ["a"; "b"; "c"]%string 7
                         "a" "c" eq_refl eq_refl))).
  vm_compute. discriminate.
Defined.

Lemma nearest_code_is_decoded_witness :
  decode_column (encoders seed1) "Gender" {[ "Gender"%string := Flt 0.3 ]}
  = Ok (<["Gender"%string := Str "Female"]> {[ "Gender"%string := Flt 0.3 ]}).
Proof.
  apply (nearest_code_is_decoded seed1 _ "Gender" ["Female"; "Male"]%string
           "Female" 0 0.3);
    [by_compute|reflexivity|reflexivity|reflexivity|reflexivity].
Defined.

(** The row 6.3, 1.7, 6.4, 2.8 in float64: the residual is
    6.8000000000000007. *)
Lemma slack_rows_keep_their_hours_witness :
  ∃ x1 x2 x3 x4 p,
    Q_of_f64 6.3 = Some x1 ∧ Q_of_f64 1.7 = Some x2
    ∧ Q_of_f64 6.4 = Some x3 ∧ Q_of_f64 2.8 = Some x4
    ∧ budget_f64 6.3 1.7 6.4 2.8
      = (6.3, 1.7, 6.4, 2.8, 6.8000000000000007)%float
    ∧ Q_of_f64 6.8000000000000007 = Some p
    ∧ Qabs (x1 + x2 + x3 + x4 + p - 24) <= 1 # 10000000000000.
Proof.
  eexists _, _, _, _, _.
  do 4 (split; [vm_compute; reflexivity|]).
  split; [vm_compute; reflexivity|]. split; [vm_compute; reflexivity|].
  match goal with
  | |- Qabs (?x1 + ?x2 + ?x3 + ?x4 + ?p - 24) <= _ =>
      pose (r := ({[ "Study_Hours_Per_Day"%string := Flt x1;
                     "Extracurricular_Hours_Per_Day"%string := Flt x2;
                     "Sleep_Hours_Per_Day"%string := Flt x3;
                     "Social_Hours_Per_Day"%string := Flt x4 ]} : row));
      assert (r !! "Study_Hours_Per_Day"%string = Some (Flt x1)) as L1
        by (vm_compute; reflexivity);
      assert (r !! "Extracurricular_Hours_Per_Day"%string = Some (Flt x2))
        as L2 by (vm_compute; reflexivity);
      assert (r !! "Sleep_Hours_Per_Day"%string = Some (Flt x3)) as L3
        by (vm_compute; reflexivity);
      assert (r !! "Social_Hours_Per_Day"%string = Some (Flt x4)) as L4
        by (vm_compute; reflexivity);
      apply (proj1 (proj2
               (slack_rows_keep_their_hours r x1 x2 x3 x4 L1 L2 L3 L4
                  ltac:(by vm_compute))) p)
  end.
  exists (4841369599423283 # 281474976710656). split; [|split].
  - exists 8, (8106479329266893 # 562949953421312).
    repeat split; by vm_compute.
  - by vm_compute.
  - by vm_compute.
Defined.

Lemma derived_columns_are_not_sampled_witness : NoDup (cols_a_modelar seed1).
Proof.
  apply (proj2 (proj2 (proj2 (derived_columns_are_not_sampled seed1)))).
  exact (proj1 seed1_valid).
Defined.

Lemma progress_estimate_witness :
  ∃ eta, eta_min 3 2 1.5 = Ok eta ∧ 0 <= eta
         ∧ eta == inject_Z (3 - 2) * 1.5 / inject_Z 2 / 60.
Proof.
  apply (proj1 (progress_estimate 3) 2%Z 1.5); [lia|reflexivity].
Defined.

Lemma generated_identifiers_are_new_witness :
  NoDup (student_ids (synthetic_rows (main 3 3 2 seed1 draws1 clock1).1))
  ∧ ∀ id, id ∈ student_ids (synthetic_rows (main 3 3 2 seed1 draws1 clock1).1) →
      ∃ n, id = Int n ∧ ∀ i, i ∈ [1; 2]%Z → (i < n)%Z.
Proof.
  split.
  - apply (proj1 (generated_identifiers_are_new 3 3 2 seed1 draws1 clock1
                    1 [2%Z] eq_refl)).
  - apply (proj2 (generated_identifiers_are_new 3 3 2 seed1 draws1 clock1
                    1 [2%Z] eq_refl));
      [exact seed1_valid|exact seed1_fits|lia].
Defined.

Lemma seed_without_covariance_is_refused_witness :
  main 1 3 2 (head_row seed1) draws1 clock1
  = ([to_csv_w (head_row seed1)], Raised LinAlgError).
Proof.
  apply (seed_without_covariance_is_refused 0 3 2 (head_row seed1) draws1
           clock1 (SInt 2));
    [repeat constructor|lia|lia|reflexivity|reflexivity].
Defined.


